(** * eth-block-tracker: the polling block tracker

    A shallow embedding of [src/PollingBlockTracker.ts].  The tracker polls a
    JSON-RPC provider for [eth_blockNumber], caches the greatest block number
    seen and publishes it to listeners.

    Layout:
    - [Js]: the fragment of JavaScript values the code inspects dynamically
      (thrown values, request objects, event payloads);
    - [BaseBlockTracker]: the super class.  The file that defines it is
      not available, so it is modelled from the specification;
    - the class [PollingBlockTracker] itself, method by method;
    - the theorems. *)

From Stdlib Require Import ZArith QArith String Ascii List Lia.
From stdpp Require Import base strings list gmap pretty.
Import ListNotations.
Local Open Scope string_scope.
Local Open Scope list_scope.

(** The line feed written [\n] in the template literals of the source. *)
Definition nl : string := String "010"%char "".

(* ===================================================================== *)
(** ** JavaScript values *)
(* ===================================================================== *)

Module Js.

(** Numbers are the integral ones (request ids); objects are property
    lists in the order the properties were written. *)
#[warnings="-register-all"]
Inductive value : Type :=
| Undefined
| Null
| Bool (b : bool)
| Num (n : Z)
| Str (s : string)
| Arr (items : list value)
| Obj (fields : list (string * value)).

Definition nullish (v : value) : bool :=
  match v with
  | Undefined | Null => true
  | _ => false
  end.

(** [a ?? b] *)
Definition coalesce (a b : value) : value :=
  if nullish a then b else a.

Fixpoint field (k : string) (fs : list (string * value)) : value :=
  match fs with
  | [] => Undefined
  | (k', v) :: rest => if String.eqb k k' then v else field k rest
  end.

(** [k in obj], on the own properties of an object. *)
Fixpoint has (k : string) (fs : list (string * value)) : bool :=
  match fs with
  | [] => false
  | (k', _) :: rest => if String.eqb k k' then true else has k rest
  end.

(** [v.k].  Reading a property of [undefined] or [null] raises a
    [TypeError], rendered as [None]; primitives and arrays answer
    [undefined] for the names the tracker reads ([stack], [message]). *)
Definition get (v : value) (k : string) : option value :=
  match v with
  | Undefined | Null => None
  | Obj fs => Some (field k fs)
  | Bool _ | Num _ | Str _ | Arr _ => Some Undefined
  end.

(** [String(v)], as performed by a template literal, for the values whose
    conversion is settled by their shape: primitives, integers short of the
    exponent notation, and plain objects and arrays that inherit their
    [toString].  The statements below rely on it for strings only. *)
Fixpoint toString (v : value) : string :=
  match v with
  | Undefined => "undefined"
  | Null => "null"
  | Bool true => "true"
  | Bool false => "false"
  | Num n => pretty n
  | Str s => s
  | Arr items =>
      let item x := if nullish x then "" else toString x in
      (fix join (l : list value) : string :=
         match l with
         | [] => ""
         | [x] => item x
         | x :: rest => item x +:+ "," +:+ join rest
         end) items
  | Obj _ => "[object Object]"
  end.

End Js.

(** How a JavaScript computation completes. *)
Inductive Completion (A : Type) : Type :=
| Normal (a : A)
| Throw (e : Js.value).
Arguments Normal {A} a.
Arguments Throw {A} e.

(** What the tracker does to the outside world, oldest first. *)
Inductive Effect : Type :=
| Sent (req : Js.value)                         (* provider.sendAsync(req, cb) *)
| Emitted (kind : string) (args : list Js.value) (* this.emit(kind, ...args)    *)
| TimerSet (duration : Q) (unref : bool).        (* setTimeout(resolve, duration) *)

Definition isSent (e : Effect) : option Js.value :=
  match e with Sent r => Some r | _ => None end.

Definition isEmitted (kind : string) (e : Effect) : bool :=
  match e with Emitted k _ => String.eqb k kind | _ => false end.

(** The requests that went out, and the emissions of one kind. *)
Definition requests (tr : list Effect) : list Js.value := omap isSent tr.
Definition emissions (kind : string) (tr : list Effect) : list Effect :=
  List.filter (isEmitted kind) tr.

(* ===================================================================== *)
(** ** The super class, [BaseBlockTracker] *)
(* ===================================================================== *)

Module BaseBlockTracker.

(** Modelled from the spec: a listener handle of the absent ledger, with
    its identity, used for removal, and its fire-once flag. *)
Record Listener : Type := {
  handle : nat;
  fireOnce : bool;
}.

(** Modelled from the spec: the options of the absent super class; the sub
    class passes [blockResetDuration], the eviction duration. *)
Record BaseBlockTrackerOptions : Type := {
  blockResetDuration : option Q;
}.

(** Modelled from the spec: the state of [BaseBlockTracker], whose source
    file is absent.  It holds the subscription ledger (event kind to the
    ordered listeners), the lifecycle state ([Stopped] is [false], [Running]
    is [true]), the cached value ([None] is "no value yet" or "evicted"), the
    configured eviction duration and the eviction timer when armed.  [trace]
    is a ghost field recording the effects performed on this object. *)
Record State : Type := {
  ledger : gmap string (list Listener);
  nextHandle : nat;
  _isRunning : bool;
  currentBlock : option string;
  evictionDuration : option Q;
  evictionTimer : option Q;
  trace : list Effect;
}.

Definition set_ledger (l : gmap string (list Listener)) (st : State) : State :=
  {| ledger := l; nextHandle := nextHandle st; _isRunning := _isRunning st;
     currentBlock := currentBlock st;
     evictionDuration := evictionDuration st;
     evictionTimer := evictionTimer st; trace := trace st |}.

Definition set_nextHandle (n : nat) (st : State) : State :=
  {| ledger := ledger st; nextHandle := n; _isRunning := _isRunning st;
     currentBlock := currentBlock st;
     evictionDuration := evictionDuration st;
     evictionTimer := evictionTimer st; trace := trace st |}.

Definition set_isRunning (b : bool) (st : State) : State :=
  {| ledger := ledger st; nextHandle := nextHandle st; _isRunning := b;
     currentBlock := currentBlock st;
     evictionDuration := evictionDuration st;
     evictionTimer := evictionTimer st; trace := trace st |}.

Definition set_currentBlock (v : option string) (st : State) : State :=
  {| ledger := ledger st; nextHandle := nextHandle st;
     _isRunning := _isRunning st; currentBlock := v;
     evictionDuration := evictionDuration st;
     evictionTimer := evictionTimer st; trace := trace st |}.

Definition set_evictionTimer (t : option Q) (st : State) : State :=
  {| ledger := ledger st; nextHandle := nextHandle st;
     _isRunning := _isRunning st; currentBlock := currentBlock st;
     evictionDuration := evictionDuration st;
     evictionTimer := t; trace := trace st |}.

(** Append one effect to the ghost trace. *)
Definition record (e : Effect) (st : State) : State :=
  {| ledger := ledger st; nextHandle := nextHandle st;
     _isRunning := _isRunning st; currentBlock := currentBlock st;
     evictionDuration := evictionDuration st;
     evictionTimer := evictionTimer st;
     trace := trace st ++ [e] |}.

(** Modelled from the spec: construction of the absent super class.  The
    cache starts null, the lifecycle starts [Stopped], the ledger is empty
    and the eviction duration is whatever the sub class forwards. *)
Definition constructor (opts : BaseBlockTrackerOptions) : State :=
  {| ledger := ∅; nextHandle := 0; _isRunning := false;
     currentBlock := None;
     evictionDuration := blockResetDuration opts;
     evictionTimer := None; trace := [] |}.

(** Modelled from the spec: [isRunning() -> bool] of the absent super
    class. *)
Definition isRunning (st : State) : bool := _isRunning st.

(** Modelled from the spec: [getCurrent() -> value|null], a read of the
    cache. *)
Definition getCurrentBlock (st : State) : option string := currentBlock st.

(** Modelled from the spec: the driving event kinds, [latest] and [sync],
    whose listener count controls the loop. *)
Definition drivingEvents : list string := ["latest"; "sync"].

Definition isDriving (kind : string) : bool :=
  existsb (String.eqb kind) drivingEvents.

Definition listeners (kind : string) (st : State) : list Listener :=
  default [] (ledger st !! kind).

Definition listenerCount (kind : string) (st : State) : nat :=
  length (listeners kind st).

(** Modelled from the spec: the ledger's combined count of [latest] and
    [sync] listeners. *)
Definition drivingCount (st : State) : nat :=
  list_sum (map (fun kind => listenerCount kind st) drivingEvents).

(** Modelled from the spec: [Stopped --ledgerBecameNonEmpty--> Running]
    cancels the pending eviction timer and starts the loop (the loop itself
    is [_synchronize] below, run by the scheduler). *)
Definition ledgerBecameNonEmpty (st : State) : State :=
  if _isRunning st then st
  else set_evictionTimer None (set_isRunning true st).

(** Modelled from the spec: an eviction duration of [undefined] or 0
    disables eviction; any other is configured. *)
Definition configured (d : option Q) : option Q :=
  match d with
  | Some q => if Qeq_bool q 0 then None else Some q
  | None => None
  end.

(** Modelled from the spec: [Running --ledgerBecameEmpty--> Stopped] revokes
    the running state and, when an eviction duration is configured, arms the
    eviction timer. *)
Definition ledgerBecameEmpty (st : State) : State :=
  if _isRunning st then
    let st1 := set_isRunning false st in
    match configured (evictionDuration st) with
    | Some d => set_evictionTimer (Some d) st1
    | None => st1
    end
  else st.

(** Modelled from the spec: the ledger notifies the controller of the
    combined count before and after a change; the controller turns a change
    from zero to nonzero into [ledgerBecameNonEmpty] and one from nonzero to
    zero into [ledgerBecameEmpty]. *)
Definition evaluate (pre post : nat) (st : State) : State :=
  if (pre =? 0)%nat && (0 <? post)%nat then ledgerBecameNonEmpty st
  else if (0 <? pre)%nat && (post =? 0)%nat then ledgerBecameEmpty st
  else st.

(** Modelled from the spec: only a change to [latest] or [sync] is
    notified to the controller; "removing a listener for any other kind never
    affects the loop". *)
Definition notify (kind : string) (pre : nat) (st : State) : State :=
  if isDriving kind then evaluate pre (drivingCount st) st
  else st.

(** Modelled from the spec: [subscribe(kind, listener, once) -> handle]
    ([on], [addListener] and [once] of the emitter). *)
Definition addListener (kind : string) (once : bool) (st : State)
  : nat * State :=
  let pre := drivingCount st in
  let h := nextHandle st in
  let l := {| handle := h; fireOnce := once |} in
  let st1 :=
    set_nextHandle (S h)
      (set_ledger (<[kind := listeners kind st ++ [l]]> (ledger st)) st) in
  (h, notify kind pre st1).

(** Modelled from the spec: [unsubscribe(kind, handle)] ([off],
    [removeListener]). *)
Definition removeListener (kind : string) (h : nat) (st : State) : State :=
  let pre := drivingCount st in
  let kept :=
    List.filter (fun l => negb (Nat.eqb (handle l) h)) (listeners kind st) in
  notify kind pre (set_ledger (<[kind := kept]> (ledger st)) st).

(** Modelled from the spec: [unsubscribeAll(kind?)].  Without a kind every
    kind is cleared and the controller is consulted exactly once. *)
Definition removeAllListeners (kind : option string) (st : State) : State :=
  let pre := drivingCount st in
  match kind with
  | Some k => notify k pre (set_ledger (<[k := []]> (ledger st)) st)
  | None =>
      let st1 := set_ledger ∅ st in
      evaluate pre (drivingCount st1) st1
  end.

(** Modelled from the spec: delivery of an event.  The emission is
    recorded; a [once] listener of that kind unsubscribes itself, and that
    removal goes through the same stop check as a manual one. *)
Definition emit (kind : string) (args : list Js.value) (st : State) : State :=
  let pre := drivingCount st in
  let kept := List.filter (fun l => negb (fireOnce l)) (listeners kind st) in
  notify kind pre
    (set_ledger (<[kind := kept]> (ledger st)) (record (Emitted kind args) st)).

(** Modelled from the spec: the operations callers perform on the absent
    ledger. *)
Inductive Op : Type :=
| On (kind : string)
| Once (kind : string)
| RemoveListener (kind : string) (h : nat)
| RemoveAllListeners (kind : option string).

Definition apply (o : Op) (st : State) : State :=
  match o with
  | On kind => snd (addListener kind false st)
  | Once kind => snd (addListener kind true st)
  | RemoveListener kind h => removeListener kind h st
  | RemoveAllListeners kind => removeAllListeners kind st
  end.

Definition run (ops : list Op) (st : State) : State :=
  fold_left (fun s o => apply o s) ops st.

(** Modelled from the spec: what can happen to the absent ledger, a
    caller's operation or an event the tracker delivers (after which the
    [once] listeners are gone). *)
Inductive Step : Type :=
| Call (o : Op)
| Deliver (kind : string) (args : list Js.value).

Definition step (s : Step) (st : State) : State :=
  match s with
  | Call o => apply o st
  | Deliver kind args => emit kind args st
  end.

Definition steps (ss : list Step) (st : State) : State :=
  fold_left (fun st s => step s st) ss st.

(** *** The cache *)

Definition hexDigit (c : ascii) : option N :=
  let n := N_of_ascii c in
  if (48 <=? n)%N && (n <=? 57)%N then Some (n - 48)%N
  else if (97 <=? n)%N && (n <=? 102)%N then Some (n - 87)%N
  else if (65 <=? n)%N && (n <=? 70)%N then Some (n - 55)%N
  else None.

Fixpoint hexDigits (acc : N) (s : string) : option N :=
  match s with
  | EmptyString => Some acc
  | String c rest =>
      match hexDigit c with
      | Some d => hexDigits (16 * acc + d)%N rest
      | None => None
      end
  end.

(** Modelled from the spec: a tracked value is a numeric string; this is
    the integer it encodes, for the [0x]-prefixed hexadecimal strings of
    [eth_blockNumber].  [None] when the string encodes no integer. *)
Definition numeric (s : string) : option N :=
  match s with
  | String "0" (String "x" (String c rest)) => hexDigits 0 (String c rest)
  | _ => None
  end.

(** Modelled from the spec: comparison of two tracked values, numeric and
    not lexicographic. *)
Definition strictlyGreater (newBlock currentBlock : string) : bool :=
  match numeric newBlock, numeric currentBlock with
  | Some n, Some c => (c <? n)%N
  | _, _ => false
  end.

Definition blockOrNull (v : option string) : Js.value :=
  match v with
  | Some s => Js.Str s
  | None => Js.Null
  end.

(** Modelled from the spec: a cache update.  The value is stored, then
    [sync] is emitted with the old and the new value and [latest] with the
    new value, in that order. *)
Definition update (newBlock : string) (st : State) : State :=
  let oldBlock := currentBlock st in
  let st1 := set_currentBlock (Some newBlock) st in
  let st2 :=
    emit "sync"
      [Js.Obj [("oldBlock", blockOrNull oldBlock);
               ("newBlock", Js.Str newBlock)]] st1 in
  emit "latest" [Js.Str newBlock] st2.

(** Modelled from the spec: [write(newValue)] of the cache, called by the
    poll loop.  "If null or strictly greater, update ...; if not greater,
    emit nothing." *)
Definition _newPotentialLatest (newBlock : string) (st : State) : State :=
  match currentBlock st with
  | None => update newBlock st
  | Some currentBlock =>
      if strictlyGreater newBlock currentBlock
      then update newBlock st
      else st
  end.

(** A promise as its caller observes it: settled, or still waiting. *)
Inductive Awaited : Type :=
| Fulfilled (v : string)
| Rejected (e : Js.value)
| Waiting.

(** Modelled from the spec: [getLatest()].  A non-null cache is returned at
    once with no fetch; otherwise a one-shot [latest] listener is registered
    and the caller waits for the first emission. *)
Definition getLatestBlock (st : State) : Awaited * State :=
  match currentBlock st with
  | Some v => (Fulfilled v, st)
  | None => (Waiting, snd (addListener "latest" true st))
  end.

End BaseBlockTracker.

(* ===================================================================== *)
(** ** The class [PollingBlockTracker] *)
(* ===================================================================== *)

(** Modelled from the spec: the response type [JsonRpcResponse<string>] of
    the provider interface, declared outside the class file: "either a value
    or a structured failure".  A response is a success carrying [result] or
    a failure carrying [error], an object with a [message]. *)
Record JsonRpcError : Type := {
  code : Z;
  message : string;
}.

Inductive JsonRpcResponse : Type :=
| JsonRpcSuccess (result : string)
| JsonRpcFailure (error : JsonRpcError).

(** Modelled from the spec: the injected query capability, known by its
    identity; what it answers is part of the environment (see [Turn]). *)
Inductive Provider : Type :=
| ProviderRef (ident : nat).

(** [PollingBlockTrackerOptions]; an absent member is [None].  Numbers
    are the finite ones, held as exact rationals, so that
    [pollingInterval / 10] is the tenth it denotes. *)
Record PollingBlockTrackerOptions : Type := {
  provider : option Provider;
  pollingInterval : option Q;
  retryTimeout : option Q;
  keepEventLoopActive : option bool;
  setSkipCacheFlag : option bool;
  blockResetDuration : option Q;
}.

(** The default argument of the constructor, [{}]. *)
Definition noOptions : PollingBlockTrackerOptions :=
  {| provider := None; pollingInterval := None; retryTimeout := None;
     keepEventLoopActive := None; setSkipCacheFlag := None;
     blockResetDuration := None |}.

(** An instance: the private fields of the class and the state inherited
    from [BaseBlockTracker]. *)
Record PollingBlockTracker : Type := {
  _provider : Provider;
  _pollingInterval : Q;
  _retryTimeout : Q;
  _keepEventLoopActive : bool;
  _setSkipCacheFlag : bool;
  super : BaseBlockTracker.State;
}.

Definition withSuper (f : BaseBlockTracker.State -> BaseBlockTracker.State)
  (this : PollingBlockTracker) : PollingBlockTracker :=
  {| _provider := _provider this;
     _pollingInterval := _pollingInterval this;
     _retryTimeout := _retryTimeout this;
     _keepEventLoopActive := _keepEventLoopActive this;
     _setSkipCacheFlag := _setSkipCacheFlag this;
     super := f (super this) |}.

Definition sec : Q := 1000.

(** [n || d] on an optional number: zero and [undefined] are falsy. *)
Definition numberOr (n : option Q) (d : Q) : Q :=
  match n with
  | Some q => if Qeq_bool q 0 then d else q
  | None => d
  end.

(** [b || false] on an optional boolean. *)
Definition boolOrFalse (b : option bool) : bool :=
  match b with
  | Some true => true
  | _ => false
  end.

(** [a ?? b] on optional members. *)
Definition orUndefined {A : Type} (a b : option A) : option A :=
  match a with
  | Some _ => a
  | None => b
  end.

(** How the promise made by [pify] around [sendAsync] settles: the callback
    delivers a response, or the provider throws or calls back with an error
    and the promise rejects with that value. *)
Inductive Reply : Type :=
| Responds (res : JsonRpcResponse)
| Rejects (e : Js.value).

(** What the environment does around one fetch: the request id drawn by
    [createRandomId], the provider's answer, and the ledger operations other
    callers perform while the loop is suspended on the fetch and on the
    sleep. *)
Record Turn : Type := {
  requestId : Z;
  reply : Reply;
  whileFetching : list BaseBlockTracker.Op;
  whileSleeping : list BaseBlockTracker.Op;
}.

(** How [_synchronize] ends on a finite script of turns: the loop saw
    [_isRunning] false and returned; the script ran out with the loop still
    alive; or an exception left the [catch] handler and the promise of
    [_synchronize] rejected. *)
Inductive LoopOutcome : Type :=
| Exited (this : PollingBlockTracker)
| Pending (this : PollingBlockTracker)
| Crashed (this : PollingBlockTracker).

Definition finalState (o : LoopOutcome) : PollingBlockTracker :=
  match o with
  | Exited this | Pending this | Crashed this => this
  end.

Section Engine.

(** The text the engine stores in [stack] for an [Error] created with a
    given message. *)
Variable captureStack : string -> string.

(** [new Error(message)] *)
Definition newError (message : string) : Js.value :=
  Js.Obj [("stack", Js.Str (captureStack message));
          ("message", Js.Str message)].

Definition constructor (opts : option PollingBlockTrackerOptions)
  : Completion PollingBlockTracker :=
  let opts := match opts with Some given => given | None => noOptions end in
  match provider opts with
  | None => Throw (newError "PollingBlockTracker - no provider specified.")
  | Some p =>
      let base :=
        BaseBlockTracker.constructor
          {| BaseBlockTracker.blockResetDuration :=
               orUndefined (blockResetDuration opts) (pollingInterval opts) |} in
      let pollingInterval' := numberOr (pollingInterval opts) (20 * sec) in
      Normal
        {| _provider := p;
           _pollingInterval := pollingInterval';
           _retryTimeout := numberOr (retryTimeout opts) (pollingInterval' / 10);
           _keepEventLoopActive :=
             match keepEventLoopActive opts with
             | None => true
             | Some b => b
             end;
           _setSkipCacheFlag := boolOrFalse (setSkipCacheFlag opts);
           super := base |}
  end.

Definition emit (kind : string) (args : list Js.value)
  (this : PollingBlockTracker) : PollingBlockTracker :=
  withSuper (BaseBlockTracker.emit kind args) this.

(** The other callers' turn, at an [await]. *)
Definition interfere (ops : list BaseBlockTracker.Op)
  (this : PollingBlockTracker) : PollingBlockTracker :=
  withSuper (BaseBlockTracker.run ops) this.

(** [timeout(duration, unref)]: one timer is set, to be unref'ed where the
    platform's timers can be; the caller awaits it. *)
Definition timeout (duration : Q) (unref : bool)
  (this : PollingBlockTracker) : PollingBlockTracker :=
  withSuper (BaseBlockTracker.record (TimerSet duration unref)) this.

(** The request object of [_fetchLatestBlock]. *)
Definition req (this : PollingBlockTracker) (id : Z) : Js.value :=
  Js.Obj
    ([("jsonrpc", Js.Str "2.0");
      ("id", Js.Num id);
      ("method", Js.Str "eth_blockNumber");
      ("params", Js.Arr [])]
     ++ (if _setSkipCacheFlag this then [("skipCache", Js.Bool true)] else [])).

Definition _fetchLatestBlock (tn : Turn) (this : PollingBlockTracker)
  : Completion string * PollingBlockTracker :=
  let this1 :=
    withSuper (BaseBlockTracker.record (Sent (req this (requestId tn)))) this in
  let this2 := interfere (whileFetching tn) this1 in
  match reply tn with
  | Rejects e => (Throw e, this2)
  | Responds (JsonRpcFailure error) =>
      (Throw
         (newError
            ("PollingBlockTracker - encountered error fetching block:" +:+ nl
             +:+ message error)),
       this2)
  | Responds (JsonRpcSuccess result) => (Normal result, this2)
  end.

Definition _updateLatestBlock (tn : Turn) (this : PollingBlockTracker)
  : Completion unit * PollingBlockTracker :=
  match _fetchLatestBlock tn this with
  | (Normal latestBlock, this1) =>
      (Normal tt,
       withSuper (BaseBlockTracker._newPotentialLatest latestBlock) this1)
  | (Throw e, this1) => (Throw e, this1)
  end.

Definition checkForLatestBlock (tn : Turn) (this : PollingBlockTracker)
  : BaseBlockTracker.Awaited * PollingBlockTracker :=
  match _updateLatestBlock tn this with
  | (Throw e, this1) => (BaseBlockTracker.Rejected e, this1)
  | (Normal _, this1) =>
      let (r, base) := BaseBlockTracker.getLatestBlock (super this1) in
      (r, withSuper (fun _ => base) this1)
  end.

(** [error.stack ?? error.message ?? error]; [None] when a property read
    raises a [TypeError]. *)
Definition cause (error : Js.value) : option Js.value :=
  match Js.get error "stack" with
  | None => None
  | Some stack =>
      if Js.nullish stack then
        match Js.get error "message" with
        | None => None
        | Some msg => Some (Js.coalesce msg error)
        end
      else Some stack
  end.

Definition updateFailed : string :=
  "PollingBlockTracker - encountered an error while attempting to update latest block:"
  +:+ nl.

(** One pass through the body of the [while] loop of [_synchronize];
    [None] when an exception leaves the [catch] handler. *)
Definition loopBody (tn : Turn) (this : PollingBlockTracker)
  : option PollingBlockTracker :=
  match _updateLatestBlock tn this with
  | (Normal _, this1) =>
      let this2 :=
        timeout (_pollingInterval this1) (negb (_keepEventLoopActive this1))
          this1 in
      let this3 := emit "_waitingForNextIteration" [] this2 in
      Some (interfere (whileSleeping tn) this3)
  | (Throw error, this1) =>
      match cause error with
      | None => None
      | Some c =>
          let newError := newError (updateFailed +:+ Js.toString c) in
          let this2 := emit "error" [newError] this1 in
          let this3 :=
            timeout (_retryTimeout this2) (negb (_keepEventLoopActive this2))
              this2 in
          Some (interfere (whileSleeping tn) this3)
      end
  end.

(** The state in which the [catch] handler was entered, for the outcome
    [Crashed]. *)
Definition afterUpdate (tn : Turn) (this : PollingBlockTracker)
  : PollingBlockTracker :=
  snd (_updateLatestBlock tn this).

Fixpoint _synchronize (turns : list Turn) (this : PollingBlockTracker)
  : LoopOutcome :=
  if negb (BaseBlockTracker._isRunning (super this)) then Exited this
  else
    match turns with
    | [] => Pending this
    | tn :: rest =>
        match loopBody tn this with
        | Some this' => _synchronize rest this'
        | None => Crashed (afterUpdate tn this)
        end
    end.

End Engine.

(** *** Predicates used by the statements *)

(** The request of [eth_blockNumber], with or without the [skipCache]
    property. *)
Definition wellFormedRequest (skipCache : bool) (r : Js.value) : Prop :=
  exists fs,
    r = Js.Obj fs /\
    Js.field "jsonrpc" fs = Js.Str "2.0" /\
    Js.field "method" fs = Js.Str "eth_blockNumber" /\
    Js.field "params" fs = Js.Arr [] /\
    Js.has "skipCache" fs = skipCache /\
    (skipCache = true -> Js.field "skipCache" fs = Js.Bool true).

(** The lifecycle agrees with the ledger. *)
Definition consistent (st : BaseBlockTracker.State) : Prop :=
  BaseBlockTracker._isRunning st
  = (0 <? BaseBlockTracker.drivingCount st)%nat.

(** *** Sample objects *)

(** A stack text in the style of V8. *)
Definition sampleStack (message : string) : string :=
  "Error: " +:+ message +:+ nl +:+ "    at PollingBlockTracker".

(** Options naming a provider and nothing else, and the tracker they
    construct. *)
Definition providerOnly : PollingBlockTrackerOptions :=
  {| provider := Some (ProviderRef 0); pollingInterval := None;
     retryTimeout := None; keepEventLoopActive := None;
     setSkipCacheFlag := None; blockResetDuration := None |}.

Definition fresh : PollingBlockTracker :=
  {| _provider := ProviderRef 0;
     _pollingInterval := 20 * sec;
     _retryTimeout := 20 * sec / 10;
     _keepEventLoopActive := true;
     _setSkipCacheFlag := false;
     super :=
       BaseBlockTracker.constructor
         {| BaseBlockTracker.blockResetDuration := None |} |}.

(** The same tracker once a [latest] listener has been added. *)
Definition listening : PollingBlockTracker :=
  interfere [BaseBlockTracker.On "latest"] fresh.

(** That tracker with block [0x1] in its cache. *)
Definition cached : PollingBlockTracker :=
  withSuper (BaseBlockTracker._newPotentialLatest "0x1") listening.

(** A turn in which nobody else does anything. *)
Definition quiet (id : Z) (r : Reply) : Turn :=
  {| requestId := id; reply := r; whileFetching := []; whileSleeping := [] |}.

(** *** Reading a run of the loop *)

Definition isTimer (e : Effect) : option (Q * bool) :=
  match e with TimerSet d u => Some (d, u) | _ => None end.

(** The timers that were set: the duration, and whether [unref] was asked
    for. *)
Definition timers (tr : list Effect) : list (Q * bool) := omap isTimer tr.

(** [if (timeoutRef.unref && unref) timeoutRef.unref()] in [timeout]:
    whether the timer still keeps the process open, on a platform whose
    timers have, or lack, the method [unref]. *)
Definition keepsProcessOpen (timerHasUnref unref : bool) : bool :=
  negb (timerHasUnref && unref).

(** Whether the provider answers a turn with a success response. *)
Definition succeeded (tn : Turn) : bool :=
  match reply tn with
  | Responds (JsonRpcSuccess _) => true
  | _ => false
  end.

(** Whether the provider's promise rejects with [undefined] or [null]. *)
Definition rejectsNullish (tn : Turn) : bool :=
  match reply tn with
  | Rejects e => Js.nullish e
  | Responds _ => false
  end.

(** The arguments of the [timeout] call a pass of the loop ends with:
    [pollingInterval] in the [try] block, [retryTimeout] in the [catch]
    handler. *)
Definition sleepOf (this : PollingBlockTracker) (tn : Turn) : Q * bool :=
  (if succeeded tn then _pollingInterval this else _retryTimeout this,
   negb (_keepEventLoopActive this)).

(** Whether the failure of a turn, if any, is one whose report is a
    string: the provider answered, or its promise rejected with a value for
    which [error.stack ?? error.message ?? error] is a string (a thrown
    string, an object with a string [stack], an object without [stack] and
    with a string [message]). *)
Definition reportable (tn : Turn) : bool :=
  match reply tn with
  | Responds _ => true
  | Rejects e =>
      match cause e with
      | Some (Js.Str _) => true
      | _ => false
      end
  end.

(** Whether nobody else touches the tracker during a turn. *)
Definition undisturbed (tn : Turn) : bool :=
  match whileFetching tn, whileSleeping tn with
  | [], [] => true
  | _, _ => false
  end.

(** The passes of [_synchronize] over a script, as a relation: the turns
    whose pass was started, those whose pass was completed, and the
    outcome. *)
Inductive Run (captureStack : string -> string)
  : list Turn -> PollingBlockTracker -> list Turn -> list Turn
    -> LoopOutcome -> Prop :=
| RunExited (turns : list Turn) (this : PollingBlockTracker) :
    BaseBlockTracker._isRunning (super this) = false ->
    Run captureStack turns this [] [] (Exited this)
| RunPending (this : PollingBlockTracker) :
    BaseBlockTracker._isRunning (super this) = true ->
    Run captureStack [] this [] [] (Pending this)
| RunCrashed (tn : Turn) (rest : list Turn) (this : PollingBlockTracker) :
    BaseBlockTracker._isRunning (super this) = true ->
    loopBody captureStack tn this = None ->
    Run captureStack (tn :: rest) this [tn] []
      (Crashed (afterUpdate captureStack tn this))
| RunPass (tn : Turn) (rest started done : list Turn)
    (this this' : PollingBlockTracker) (o : LoopOutcome) :
    BaseBlockTracker._isRunning (super this) = true ->
    loopBody captureStack tn this = Some this' ->
    Run captureStack rest this' started done o ->
    Run captureStack (tn :: rest) this (tn :: started) (tn :: done) o.

(* ===================================================================== *)
(** ** Theorems: the lifecycle follows the ledger *)
(* ===================================================================== *)

Module B := BaseBlockTracker.

Lemma isDriving_false (kind : string) :
  B.isDriving kind = false <-> kind <> "latest" /\ kind <> "sync".
Proof.
  unfold B.isDriving, B.drivingEvents. simpl.
  rewrite orb_false_r, orb_false_iff, !String.eqb_neq. tauto.
Qed.

Lemma drivingCount_unfold (st : B.State) :
  B.drivingCount st
  = (length (default [] (B.ledger st !! "latest"))
     + length (default [] (B.ledger st !! "sync")))%nat.
Proof.
  unfold B.drivingCount, B.drivingEvents, B.listenerCount, B.listeners.
  simpl. lia.
Qed.

(** Changing the listeners of another kind leaves the driving count alone. *)
Lemma drivingCount_other (kind : string) (ls : list B.Listener)
    (st st' : B.State) :
  B.isDriving kind = false ->
  B.ledger st' = <[kind := ls]> (B.ledger st) ->
  B.drivingCount st' = B.drivingCount st.
Proof.
  intros Hk Hl. apply isDriving_false in Hk as [H1 H2].
  rewrite !drivingCount_unfold, Hl.
  rewrite !lookup_insert_ne by congruence. reflexivity.
Qed.

Lemma evaluate_ledger (pre post : nat) (st : B.State) :
  B.ledger (B.evaluate pre post st) = B.ledger st.
Proof.
  unfold B.evaluate, B.ledgerBecameNonEmpty, B.ledgerBecameEmpty.
  repeat case_match; reflexivity.
Qed.

Lemma evaluate_drivingCount (pre post : nat) (st : B.State) :
  B.drivingCount (B.evaluate pre post st) = B.drivingCount st.
Proof. rewrite !drivingCount_unfold, evaluate_ledger. reflexivity. Qed.

(** The controller re-establishes the agreement after any change of the
    count, provided it held before the change. *)
Lemma evaluate_consistent (pre : nat) (st : B.State) :
  B._isRunning st = (0 <? pre)%nat ->
  consistent (B.evaluate pre (B.drivingCount st) st).
Proof.
  intros Hrun. unfold consistent. rewrite evaluate_drivingCount.
  unfold B.evaluate, B.ledgerBecameNonEmpty, B.ledgerBecameEmpty.
  destruct pre as [|pre], (B.drivingCount st) as [|post]; simpl in *;
    rewrite Hrun; simpl; repeat case_match; reflexivity.
Qed.

Lemma notify_consistent (kind : string) (pre : nat) (st : B.State) :
  B._isRunning st = (0 <? pre)%nat ->
  (B.isDriving kind = false -> B.drivingCount st = pre) ->
  consistent (B.notify kind pre st).
Proof.
  intros Hrun Hsame. unfold B.notify.
  destruct (B.isDriving kind) eqn:Hk.
  - apply evaluate_consistent, Hrun.
  - unfold consistent. rewrite Hsame by reflexivity. exact Hrun.
Qed.

Lemma notify_isRunning_other (kind : string) (pre : nat) (st : B.State) :
  B.isDriving kind = false ->
  B._isRunning (B.notify kind pre st) = B._isRunning st.
Proof. intros Hk. unfold B.notify. rewrite Hk. reflexivity. Qed.

Lemma addListener_consistent (kind : string) (once : bool) (st : B.State) :
  consistent st -> consistent (snd (B.addListener kind once st)).
Proof.
  intros Hc. unfold B.addListener. simpl.
  apply notify_consistent; [exact Hc|].
  intros Hk. eapply drivingCount_other; [exact Hk|reflexivity].
Qed.

Lemma removeListener_consistent (kind : string) (h : nat) (st : B.State) :
  consistent st -> consistent (B.removeListener kind h st).
Proof.
  intros Hc. unfold B.removeListener.
  apply notify_consistent; [exact Hc|].
  intros Hk. eapply drivingCount_other; [exact Hk|reflexivity].
Qed.

Lemma removeAllListeners_consistent (kind : option string) (st : B.State) :
  consistent st -> consistent (B.removeAllListeners kind st).
Proof.
  intros Hc. unfold B.removeAllListeners. destruct kind as [k|].
  - apply notify_consistent; [exact Hc|].
    intros Hk. eapply drivingCount_other; [exact Hk|reflexivity].
  - apply evaluate_consistent. exact Hc.
Qed.

Lemma emit_consistent (kind : string) (args : list Js.value) (st : B.State) :
  consistent st -> consistent (B.emit kind args st).
Proof.
  intros Hc. unfold B.emit.
  apply notify_consistent; [exact Hc|].
  intros Hk. eapply drivingCount_other; [exact Hk|reflexivity].
Qed.

Lemma apply_consistent (o : B.Op) (st : B.State) :
  consistent st -> consistent (B.apply o st).
Proof.
  intros Hc. destruct o; cbn [B.apply].
  - apply addListener_consistent, Hc.
  - apply addListener_consistent, Hc.
  - apply removeListener_consistent, Hc.
  - apply removeAllListeners_consistent, Hc.
Qed.

Lemma step_consistent (s : B.Step) (st : B.State) :
  consistent st -> consistent (B.step s st).
Proof.
  intros Hc. destruct s; cbn [B.step].
  - apply apply_consistent, Hc.
  - apply emit_consistent, Hc.
Qed.

Lemma steps_consistent (ss : list B.Step) (st : B.State) :
  consistent st -> consistent (B.steps ss st).
Proof.
  revert st. induction ss as [|s ss IH]; intros st Hc; simpl; [exact Hc|].
  apply IH, step_consistent, Hc.
Qed.

Lemma run_consistent (ops : list B.Op) (st : B.State) :
  consistent st -> consistent (B.run ops st).
Proof.
  revert st. induction ops as [|o ops IH]; intros st Hc; simpl; [exact Hc|].
  apply IH, apply_consistent, Hc.
Qed.

Lemma constructor_consistent (opts : B.BaseBlockTrackerOptions) :
  consistent (B.constructor opts).
Proof. reflexivity. Qed.

(** C1.  Whatever sequence of subscriptions, removals and deliveries a
    freshly constructed tracker goes through, [isRunning()] is true exactly
    when the combined number of registered [latest] and [sync] listeners is
    not zero; and adding or removing listeners of any other kind, in any
    state, leaves [isRunning()] as it was. *)
Theorem isRunning_iff_driving_listeners :
  (forall (opts : B.BaseBlockTrackerOptions) (ss : list B.Step),
     let st := B.steps ss (B.constructor opts) in
     B.isRunning st = true <->
     (B.listenerCount "latest" st + B.listenerCount "sync" st <> 0)%nat)
  /\
  (forall (kind : string) (st : B.State),
     kind <> "latest" -> kind <> "sync" ->
     (forall once, B.isRunning (snd (B.addListener kind once st))
                   = B.isRunning st) /\
     (forall h, B.isRunning (B.removeListener kind h st) = B.isRunning st) /\
     B.isRunning (B.removeAllListeners (Some kind) st) = B.isRunning st).
Proof.
  split.
  - intros opts ss st.
    pose proof (steps_consistent ss _ (constructor_consistent opts)) as Hc.
    fold st in Hc. unfold consistent in Hc. unfold B.isRunning. rewrite Hc.
    rewrite drivingCount_unfold. unfold B.listenerCount, B.listeners.
    rewrite Nat.ltb_lt. lia.
  - intros kind st H1 H2.
    assert (Hk : B.isDriving kind = false) by (apply isDriving_false; auto).
    unfold B.isRunning, B.addListener, B.removeListener, B.removeAllListeners.
    simpl. repeat split; intros; rewrite notify_isRunning_other by exact Hk;
      reflexivity.
Qed.

(** C1, on a concrete ledger: a listener of another kind comes and goes
    while one [latest] listener keeps the tracker running. *)
Lemma isRunning_iff_driving_listeners_witness :
  let st := snd (B.addListener "latest" false
                   (B.constructor {| B.blockResetDuration := None |})) in
  "somethingElse" <> "latest" /\ "somethingElse" <> "sync" /\
  B.isRunning (B.removeListener "somethingElse" 1 st) = B.isRunning st.
Proof.
  intros st.
  assert (H1 : "somethingElse" <> "latest") by discriminate.
  assert (H2 : "somethingElse" <> "sync") by discriminate.
  split; [exact H1|]. split; [exact H2|].
  exact (proj1 (proj2 (proj2 isRunning_iff_driving_listeners
                         "somethingElse" st H1 H2)) 1%nat).
Defined.

(* ===================================================================== *)
(** ** Theorems: what each step leaves untouched *)
(* ===================================================================== *)

Ltac unfold_controller :=
  unfold B.notify, B.evaluate, B.ledgerBecameNonEmpty, B.ledgerBecameEmpty,
    B.set_evictionTimer, B.set_isRunning, B.set_ledger, B.set_nextHandle,
    B.set_currentBlock, B.record.

Lemma notify_trace (kind : string) (pre : nat) (st : B.State) :
  B.trace (B.notify kind pre st) = B.trace st.
Proof. unfold_controller. repeat case_match; reflexivity. Qed.

Lemma notify_currentBlock (kind : string) (pre : nat) (st : B.State) :
  B.currentBlock (B.notify kind pre st) = B.currentBlock st.
Proof. unfold_controller. repeat case_match; reflexivity. Qed.

Lemma evaluate_trace (pre post : nat) (st : B.State) :
  B.trace (B.evaluate pre post st) = B.trace st.
Proof. unfold_controller. repeat case_match; reflexivity. Qed.

Lemma evaluate_currentBlock (pre post : nat) (st : B.State) :
  B.currentBlock (B.evaluate pre post st) = B.currentBlock st.
Proof. unfold_controller. repeat case_match; reflexivity. Qed.

(** Callers' ledger operations emit nothing and never touch the cache. *)
Lemma apply_trace (o : B.Op) (st : B.State) :
  B.trace (B.apply o st) = B.trace st.
Proof.
  destruct o as [kind|kind|kind h|[kind|]]; cbn [B.apply];
    unfold B.addListener, B.removeListener, B.removeAllListeners;
    cbn [snd]; rewrite ?notify_trace, ?evaluate_trace; reflexivity.
Qed.

Lemma apply_currentBlock (o : B.Op) (st : B.State) :
  B.currentBlock (B.apply o st) = B.currentBlock st.
Proof.
  destruct o as [kind|kind|kind h|[kind|]]; cbn [B.apply];
    unfold B.addListener, B.removeListener, B.removeAllListeners;
    cbn [snd]; rewrite ?notify_currentBlock, ?evaluate_currentBlock;
    reflexivity.
Qed.

Lemma run_trace (ops : list B.Op) (st : B.State) :
  B.trace (B.run ops st) = B.trace st.
Proof.
  revert st. induction ops as [|o ops IH]; intros st; simpl; [reflexivity|].
  rewrite IH. apply apply_trace.
Qed.

Lemma run_currentBlock (ops : list B.Op) (st : B.State) :
  B.currentBlock (B.run ops st) = B.currentBlock st.
Proof.
  revert st. induction ops as [|o ops IH]; intros st; simpl; [reflexivity|].
  rewrite IH. apply apply_currentBlock.
Qed.

(** An emission adds itself to the trace and leaves the cache alone. *)
Lemma emit_trace (kind : string) (args : list Js.value) (st : B.State) :
  B.trace (B.emit kind args st) = B.trace st ++ [Emitted kind args].
Proof. unfold B.emit. rewrite notify_trace. reflexivity. Qed.

Lemma emit_currentBlock (kind : string) (args : list Js.value)
    (st : B.State) :
  B.currentBlock (B.emit kind args st) = B.currentBlock st.
Proof. unfold B.emit. rewrite notify_currentBlock. reflexivity. Qed.

Lemma update_currentBlock (newBlock : string) (st : B.State) :
  B.currentBlock (B.update newBlock st) = Some newBlock.
Proof. unfold B.update. rewrite !emit_currentBlock. reflexivity. Qed.

Lemma update_trace (newBlock : string) (st : B.State) :
  B.trace (B.update newBlock st)
  = B.trace st
    ++ [Emitted "sync"
          [Js.Obj [("oldBlock", B.blockOrNull (B.currentBlock st));
                   ("newBlock", Js.Str newBlock)]];
        Emitted "latest" [Js.Str newBlock]].
Proof.
  unfold B.update. rewrite !emit_trace. simpl. rewrite <- app_assoc.
  reflexivity.
Qed.

Lemma withSuper_id (this : PollingBlockTracker) :
  withSuper (fun st => st) this = this.
Proof. destruct this; reflexivity. Qed.

Lemma withSuper_same (f : B.State -> B.State) (this : PollingBlockTracker) :
  f (super this) = super this -> withSuper f this = this.
Proof. intros H. destruct this; unfold withSuper; simpl in *. rewrite H. reflexivity. Qed.

(* ===================================================================== *)
(** ** Theorems: the cache *)
(* ===================================================================== *)

Lemma strictlyGreater_spec (newBlock currentBlock : string) :
  B.strictlyGreater newBlock currentBlock = true <->
  exists n c,
    B.numeric newBlock = Some n /\ B.numeric currentBlock = Some c /\
    (c < n)%N.
Proof.
  unfold B.strictlyGreater. split.
  - destruct (B.numeric newBlock) as [n|], (B.numeric currentBlock) as [c|];
      try discriminate.
    intros H. exists n, c. rewrite N.ltb_lt in H. auto.
  - intros (n & c & -> & -> & H). apply N.ltb_lt, H.
Qed.

(** C2.  A cache write either leaves the cached block as it was or stores
    the new block, and it stores it only over a null cache or over a block
    whose number is strictly smaller.  When the fetched block's number is
    smaller than or equal to the cached one, [_updateLatestBlock] ends in
    the very state in which the fetch returned: same cache, nothing
    emitted. *)
Theorem cache_never_regresses (captureStack : string -> string) :
  (forall (newBlock : string) (st : B.State),
     let st' := B._newPotentialLatest newBlock st in
     st' = st \/
     (B.getCurrentBlock st' = Some newBlock /\
      match B.getCurrentBlock st with
      | None => True
      | Some currentBlock =>
          exists n c,
            B.numeric newBlock = Some n /\ B.numeric currentBlock = Some c /\
            (c < n)%N
      end))
  /\
  (forall (tn : Turn) (this this1 : PollingBlockTracker)
          (latestBlock currentBlock : string) (n c : N),
     _fetchLatestBlock captureStack tn this = (Normal latestBlock, this1) ->
     B.getCurrentBlock (super this1) = Some currentBlock ->
     B.numeric latestBlock = Some n ->
     B.numeric currentBlock = Some c ->
     (n <= c)%N ->
     _updateLatestBlock captureStack tn this = (Normal tt, this1)).
Proof.
  split.
  - intros newBlock st st'. subst st'.
    unfold B._newPotentialLatest, B.getCurrentBlock.
    destruct (B.currentBlock st) as [cur|] eqn:Hcur.
    + destruct (B.strictlyGreater newBlock cur) eqn:Hgt; [|left; reflexivity].
      right. split; [apply update_currentBlock|].
      apply strictlyGreater_spec, Hgt.
    + right. split; [apply update_currentBlock|exact I].
  - intros tn this this1 latestBlock cur n c Hfetch Hcur Hn Hc Hle.
    unfold _updateLatestBlock. rewrite Hfetch. f_equal.
    apply withSuper_same.
    unfold B._newPotentialLatest. unfold B.getCurrentBlock in Hcur.
    rewrite Hcur.
    destruct (B.strictlyGreater latestBlock cur) eqn:Hgt; [|reflexivity].
    apply strictlyGreater_spec in Hgt as (n' & c' & Hn' & Hc' & Hlt).
    rewrite Hn in Hn'. rewrite Hc in Hc'.
    injection Hn' as <-. injection Hc' as <-. lia.
Qed.

(** C2, on a concrete run: block [0x1] is cached and the provider answers
    [0x0]. *)
Lemma cache_never_regresses_witness :
  let tn := quiet 2 (Responds (JsonRpcSuccess "0x0")) in
  let this1 := snd (_fetchLatestBlock sampleStack tn cached) in
  _fetchLatestBlock sampleStack tn cached = (Normal "0x0", this1) /\
  B.getCurrentBlock (super this1) = Some "0x1" /\
  B.numeric "0x0" = Some 0%N /\
  B.numeric "0x1" = Some 1%N /\
  (0 <= 1)%N /\
  _updateLatestBlock sampleStack tn cached = (Normal tt, this1).
Proof.
  intros tn this1.
  assert (H1 : _fetchLatestBlock sampleStack tn cached = (Normal "0x0", this1))
    by (vm_compute; reflexivity).
  assert (H2 : B.getCurrentBlock (super this1) = Some "0x1")
    by (vm_compute; reflexivity).
  assert (H3 : B.numeric "0x0" = Some 0%N) by (vm_compute; reflexivity).
  assert (H4 : B.numeric "0x1" = Some 1%N) by (vm_compute; reflexivity).
  assert (H5 : (0 <= 1)%N) by lia.
  split; [exact H1|]. split; [exact H2|]. split; [exact H3|].
  split; [exact H4|]. split; [exact H5|].
  exact (proj2 (cache_never_regresses sampleStack)
           tn cached this1 "0x0" "0x1" 0%N 1%N H1 H2 H3 H4 H5).
Defined.

(* ===================================================================== *)
(** ** Theorems: fetching *)
(* ===================================================================== *)

Section Fetching.

Variable captureStack : string -> string.

Lemma fetch_state (tn : Turn) (this : PollingBlockTracker) :
  snd (_fetchLatestBlock captureStack tn this)
  = interfere (whileFetching tn)
      (withSuper (B.record (Sent (req this (requestId tn)))) this).
Proof.
  unfold _fetchLatestBlock. destruct (reply tn) as [[result|error]|e];
    reflexivity.
Qed.

(** A fetch sends exactly one request and does nothing else observable. *)
Lemma fetch_trace (tn : Turn) (this : PollingBlockTracker) :
  B.trace (super (snd (_fetchLatestBlock captureStack tn this)))
  = B.trace (super this) ++ [Sent (req this (requestId tn))].
Proof.
  rewrite fetch_state. unfold interfere. simpl. rewrite run_trace.
  reflexivity.
Qed.

Lemma fetch_currentBlock (tn : Turn) (this : PollingBlockTracker) :
  B.currentBlock (super (snd (_fetchLatestBlock captureStack tn this)))
  = B.currentBlock (super this).
Proof.
  rewrite fetch_state. unfold interfere. simpl. rewrite run_currentBlock.
  reflexivity.
Qed.

Lemma fetch_setSkipCacheFlag (tn : Turn) (this : PollingBlockTracker) :
  _setSkipCacheFlag (snd (_fetchLatestBlock captureStack tn this))
  = _setSkipCacheFlag this.
Proof. rewrite fetch_state. reflexivity. Qed.

Lemma newError_message (msg : string) :
  Js.get (newError captureStack msg) "message" = Some (Js.Str msg).
Proof. reflexivity. Qed.

Lemma newError_stack (msg : string) :
  Js.get (newError captureStack msg) "stack"
  = Some (Js.Str (captureStack msg)).
Proof. reflexivity. Qed.

Lemma fetch_result (tn : Turn) (this : PollingBlockTracker) :
  fst (_fetchLatestBlock captureStack tn this)
  = match reply tn with
    | Rejects e => Throw e
    | Responds (JsonRpcFailure error) =>
        Throw
          (newError captureStack
             ("PollingBlockTracker - encountered error fetching block:"
              +:+ nl +:+ message error))
    | Responds (JsonRpcSuccess result) => Normal result
    end.
Proof.
  unfold _fetchLatestBlock. destruct (reply tn) as [[result|error]|e];
    reflexivity.
Qed.

(** C4.  [_fetchLatestBlock] throws an [Error] whose message is the fixed
    text, a line feed and the payload's message when the response carries
    [error]; it throws what the provider threw or rejected with; otherwise
    it returns [result] as it came. *)
Theorem fetchLatestBlock_outcome (tn : Turn) (this : PollingBlockTracker) :
  match reply tn with
  | Responds (JsonRpcFailure error) =>
      exists e,
        fst (_fetchLatestBlock captureStack tn this) = Throw e /\
        Js.get e "message"
        = Some (Js.Str ("PollingBlockTracker - encountered error fetching block:"
                        +:+ nl +:+ message error))
  | Rejects e => fst (_fetchLatestBlock captureStack tn this) = Throw e
  | Responds (JsonRpcSuccess result) =>
      fst (_fetchLatestBlock captureStack tn this) = Normal result
  end.
Proof.
  rewrite fetch_result. destruct (reply tn) as [[result|error]|e].
  - reflexivity.
  - eexists. split; [reflexivity|]. apply newError_message.
  - reflexivity.
Qed.

(** The two ways [checkForLatestBlock] settles, by the outcome of its
    fetch. *)
Lemma checkForLatestBlock_cases (tn : Turn)
    (this : PollingBlockTracker) :
  match fst (_fetchLatestBlock captureStack tn this) with
  | Throw e =>
      exists this',
        checkForLatestBlock captureStack tn this = (B.Rejected e, this') /\
        B.trace (super this')
        = B.trace (super this) ++ [Sent (req this (requestId tn))] /\
        B.getCurrentBlock (super this') = B.getCurrentBlock (super this)
  | Normal latestBlock =>
      exists v this',
        checkForLatestBlock captureStack tn this = (B.Fulfilled v, this') /\
        super this'
        = B._newPotentialLatest latestBlock
            (super (snd (_fetchLatestBlock captureStack tn this))) /\
        B.getCurrentBlock (super this') = Some v /\
        requests (B.trace (super this'))
        = requests (B.trace (super this)) ++ [req this (requestId tn)] /\
        emissions "error" (B.trace (super this'))
        = emissions "error" (B.trace (super this))
  end.
Proof.
  pose proof (fetch_trace tn this) as Htr.
  pose proof (fetch_currentBlock tn this) as Hcb.
  unfold checkForLatestBlock, _updateLatestBlock.
  destruct (_fetchLatestBlock captureStack tn this) as [[latestBlock|e] this1].
  - cbn [fst snd] in *. unfold B.getLatestBlock.
    set (st := B._newPotentialLatest latestBlock (super this1)).
    assert (Hsome : exists v, B.currentBlock st = Some v).
    { subst st. unfold B._newPotentialLatest.
      destruct (B.currentBlock (super this1)) as [cur|] eqn:Hcur.
      - destruct (B.strictlyGreater latestBlock cur).
        + eexists. apply update_currentBlock.
        + eexists. exact Hcur.
      - eexists. apply update_currentBlock. }
    destruct Hsome as [v Hv]. exists v. eexists.
    cbn [super withSuper]. fold st. rewrite Hv. split; [reflexivity|].
    cbn [super withSuper]. split; [reflexivity|]. split; [exact Hv|].
    assert (Htrace : B.trace st = B.trace (super this1)
                     \/ exists a b, B.trace st
                          = B.trace (super this1)
                            ++ [Emitted "sync" a; Emitted "latest" b]).
    { subst st. unfold B._newPotentialLatest.
      destruct (B.currentBlock (super this1)) as [cur|];
        [destruct (B.strictlyGreater latestBlock cur)|];
        rewrite ?update_trace; eauto. }
    destruct Htrace as [->|(a & b & ->)]; rewrite Htr; unfold requests, emissions;
      rewrite ?omap_app, ?List.filter_app; simpl; rewrite ?app_nil_r; auto.
  - cbn [fst snd] in *. exists this1. split; [reflexivity|].
    split; [exact Htr|exact Hcb].
Qed.

(** C5.  Against a failing provider [checkForLatestBlock] rejects: with the
    value the provider threw or rejected with, or with the [Error] made from
    the error payload; one request has gone out and nothing was emitted.
    Against a succeeding provider it performs one fetch and one cache update
    and is fulfilled with the block the cache then holds. *)
Theorem checkForLatestBlock_propagates (tn : Turn)
    (this : PollingBlockTracker) :
  let sent := B.trace (super this) ++ [Sent (req this (requestId tn))] in
  match reply tn with
  | Rejects e =>
      exists this',
        checkForLatestBlock captureStack tn this = (B.Rejected e, this') /\
        B.trace (super this') = sent
  | Responds (JsonRpcFailure error) =>
      exists e this',
        checkForLatestBlock captureStack tn this = (B.Rejected e, this') /\
        Js.get e "message"
        = Some (Js.Str ("PollingBlockTracker - encountered error fetching block:"
                        +:+ nl +:+ message error)) /\
        B.trace (super this') = sent
  | Responds (JsonRpcSuccess latestBlock) =>
      exists v this',
        checkForLatestBlock captureStack tn this = (B.Fulfilled v, this') /\
        super this'
        = B._newPotentialLatest latestBlock
            (super (snd (_fetchLatestBlock captureStack tn this))) /\
        B.getCurrentBlock (super this') = Some v /\
        requests (B.trace (super this'))
        = requests (B.trace (super this)) ++ [req this (requestId tn)] /\
        emissions "error" (B.trace (super this'))
        = emissions "error" (B.trace (super this))
  end.
Proof.
  intros sent. subst sent.
  pose proof (checkForLatestBlock_cases tn this) as H.
  rewrite fetch_result in H.
  destruct (reply tn) as [[result|error]|e].
  - exact H.
  - destruct H as (this' & Hc & Ht & _).
    eexists. exists this'. split; [exact Hc|].
    split; [apply newError_message|exact Ht].
  - destruct H as (this' & Hc & Ht & _). exists this'. auto.
Qed.

End Fetching.

(* ===================================================================== *)
(** ** Theorems: the poll loop *)
(* ===================================================================== *)

Section PollLoop.

Variable captureStack : string -> string.

(** The loop tests [_isRunning] where the [while] statement does: before the
    first pass and after each pass. *)
Lemma synchronize_stopped (turns : list Turn) (this : PollingBlockTracker) :
  B.isRunning (super this) = false ->
  _synchronize captureStack turns this = Exited this.
Proof.
  unfold B.isRunning. intros H. destruct turns; simpl; rewrite H; reflexivity.
Qed.


Lemma synchronize_crash (tn : Turn) (rest : list Turn)
    (this : PollingBlockTracker) :
  B.isRunning (super this) = true ->
  loopBody captureStack tn this = None ->
  _synchronize captureStack (tn :: rest) this
  = Crashed (afterUpdate captureStack tn this).
Proof.
  unfold B.isRunning. intros Hrun Hbody. simpl. rewrite Hrun, Hbody.
  reflexivity.
Qed.

(** [error.stack ?? error.message ?? error] is defined for every thrown
    value except [undefined] and [null]. *)
Lemma cause_defined (error : Js.value) :
  Js.nullish error = false ->
  exists stack msg,
    Js.get error "stack" = Some stack /\
    Js.get error "message" = Some msg /\
    cause error = Some (Js.coalesce (Js.coalesce stack msg) error).
Proof.
  intros Hn. unfold cause.
  destruct error; try discriminate; simpl;
    try (exists Js.Undefined, Js.Undefined; repeat split; reflexivity).
  exists (Js.field "stack" fields), (Js.field "message" fields).
  split; [reflexivity|]. split; [reflexivity|].
  unfold Js.coalesce.
  destruct (Js.nullish (Js.field "stack" fields)) eqn:Hs; [reflexivity|].
  rewrite Hs. reflexivity.
Qed.

Lemma cause_nullish (error : Js.value) :
  Js.nullish error = true -> cause error = None.
Proof. destruct error; try discriminate; reflexivity. Qed.

(** A pass whose fetch fails with a value that is neither [undefined] nor
    [null]: the request, one [error] event carrying the wrapped cause, one
    timer of [retryTimeout]; the cache is not touched. *)
Lemma loopBody_fetch_failed (tn : Turn) (this : PollingBlockTracker)
    (error c : Js.value) :
  fst (_fetchLatestBlock captureStack tn this) = Throw error ->
  cause error = Some c ->
  exists this',
    loopBody captureStack tn this = Some this' /\
    B.trace (super this')
    = B.trace (super this)
      ++ [Sent (req this (requestId tn));
          Emitted "error"
            [newError captureStack (updateFailed +:+ Js.toString c)];
          TimerSet (_retryTimeout this) (negb (_keepEventLoopActive this))] /\
    B.getCurrentBlock (super this') = B.getCurrentBlock (super this).
Proof.
  intros Hf Hc.
  pose proof (fetch_trace captureStack tn this) as Htr.
  pose proof (fetch_currentBlock captureStack tn this) as Hcb.
  pose proof (fetch_state captureStack tn this) as Hst.
  unfold loopBody, _updateLatestBlock.
  destruct (_fetchLatestBlock captureStack tn this) as [[v|e] this1];
    cbn [fst snd] in *; [discriminate|].
  injection Hf as ->. rewrite Hc. eexists. split; [reflexivity|].
  unfold interfere, timeout, emit, B.getCurrentBlock. cbn [super withSuper].
  rewrite run_trace, run_currentBlock. cbn [B.trace B.currentBlock B.record].
  rewrite emit_trace, emit_currentBlock, Htr, Hcb, <- !app_assoc.
  rewrite Hst. split; reflexivity.
Qed.

(** A pass whose fetch succeeds: the request, the emissions of the cache
    update if any, one timer of [pollingInterval], the
    [_waitingForNextIteration] signal. *)
Lemma loopBody_fetch_succeeded (tn : Turn) (this : PollingBlockTracker)
    (latestBlock : string) :
  fst (_fetchLatestBlock captureStack tn this) = Normal latestBlock ->
  let this1 := snd (_fetchLatestBlock captureStack tn this) in
  let st := B._newPotentialLatest latestBlock (super this1) in
  exists this',
    loopBody captureStack tn this = Some this' /\
    B.trace (super this')
    = B.trace st
      ++ [TimerSet (_pollingInterval this) (negb (_keepEventLoopActive this));
          Emitted "_waitingForNextIteration" []] /\
    B.getCurrentBlock (super this') = B.getCurrentBlock st.
Proof.
  intros Hf this1 st. subst this1 st.
  pose proof (fetch_state captureStack tn this) as Hst.
  unfold loopBody, _updateLatestBlock.
  destruct (_fetchLatestBlock captureStack tn this) as [[v|e] this1];
    cbn [fst snd] in *; [|discriminate].
  injection Hf as ->. eexists. split; [reflexivity|].
  unfold interfere, timeout, emit, B.getCurrentBlock. cbn [super withSuper].
  rewrite run_trace, run_currentBlock, emit_trace, emit_currentBlock.
  cbn [B.trace B.currentBlock B.record].
  rewrite <- app_assoc. rewrite Hst. split; reflexivity.
Qed.

End PollLoop.

(* ===================================================================== *)
(** ** Theorems: the requests that go out *)
(* ===================================================================== *)

Section Requests.

Variable captureStack : string -> string.

Lemma req_wellFormed (this : PollingBlockTracker) (id : Z) :
  wellFormedRequest (_setSkipCacheFlag this) (req this id).
Proof.
  unfold wellFormedRequest, req. eexists. split; [reflexivity|].
  destruct (_setSkipCacheFlag this); simpl; repeat split; auto; discriminate.
Qed.

Lemma requests_app (tr1 tr2 : list Effect) :
  requests (tr1 ++ tr2) = requests tr1 ++ requests tr2.
Proof. unfold requests. apply omap_app. Qed.

Lemma newPotentialLatest_requests (newBlock : string) (st : B.State) :
  requests (B.trace (B._newPotentialLatest newBlock st))
  = requests (B.trace st).
Proof.
  unfold B._newPotentialLatest.
  destruct (B.currentBlock st) as [cur|];
    [destruct (B.strictlyGreater newBlock cur)|];
    rewrite ?update_trace, ?requests_app; simpl; rewrite ?app_nil_r;
    reflexivity.
Qed.

Lemma updateLatestBlock_requests (tn : Turn) (this : PollingBlockTracker) :
  let this1 := snd (_updateLatestBlock captureStack tn this) in
  requests (B.trace (super this1))
  = requests (B.trace (super this)) ++ [req this (requestId tn)]
  /\ _setSkipCacheFlag this1 = _setSkipCacheFlag this.
Proof.
  pose proof (fetch_trace captureStack tn this) as Htr.
  pose proof (fetch_setSkipCacheFlag captureStack tn this) as Hfl.
  unfold _updateLatestBlock.
  destruct (_fetchLatestBlock captureStack tn this) as [[v|e] this1];
    cbn [fst snd super withSuper _setSkipCacheFlag] in *;
    rewrite ?newPotentialLatest_requests, Htr, requests_app; auto.
Qed.

Lemma loopBody_requests (tn : Turn) (this this' : PollingBlockTracker) :
  loopBody captureStack tn this = Some this' ->
  requests (B.trace (super this'))
  = requests (B.trace (super this)) ++ [req this (requestId tn)]
  /\ _setSkipCacheFlag this' = _setSkipCacheFlag this.
Proof.
  pose proof (updateLatestBlock_requests tn this) as [Hreq Hfl].
  unfold loopBody.
  destruct (_updateLatestBlock captureStack tn this) as [[v|e] this1];
    cbn [snd] in *.
  - intros [= <-]. unfold interfere, timeout, emit.
    cbn [super withSuper _setSkipCacheFlag].
    rewrite run_trace, emit_trace. cbn [B.trace B.record].
    rewrite !requests_app. simpl. rewrite !app_nil_r. auto.
  - destruct (cause e) as [c|]; [|discriminate].
    intros [= <-]. unfold interfere, timeout, emit.
    cbn [super withSuper _setSkipCacheFlag].
    rewrite run_trace. cbn [B.trace B.record]. rewrite emit_trace.
    rewrite !requests_app. simpl. rewrite !app_nil_r. auto.
Qed.

(** Every request the loop sends has the shape of [req]. *)
Lemma synchronize_requests (turns : list Turn) (this : PollingBlockTracker) :
  Forall (wellFormedRequest (_setSkipCacheFlag this))
    (requests (B.trace (super this))) ->
  Forall (wellFormedRequest (_setSkipCacheFlag this))
    (requests
       (B.trace (super (finalState (_synchronize captureStack turns this))))).
Proof.
  revert this. induction turns as [|tn rest IH]; intros this Hall.
  - simpl. destruct (negb _); exact Hall.
  - simpl. destruct (negb _); [exact Hall|].
    destruct (loopBody captureStack tn this) as [this'|] eqn:Hbody.
    + apply loopBody_requests in Hbody as [Hreq Hfl].
      rewrite <- Hfl. apply IH. rewrite Hfl, Hreq.
      apply Forall_app. split; [exact Hall|].
      constructor; [apply req_wellFormed|constructor].
    + cbn [finalState]. unfold afterUpdate.
      destruct (updateLatestBlock_requests tn this) as [Hreq _].
      rewrite Hreq. apply Forall_app. split; [exact Hall|].
      constructor; [apply req_wellFormed|constructor].
Qed.

Lemma checkForLatestBlock_requests (tn : Turn) (this : PollingBlockTracker) :
  requests (B.trace (super (snd (checkForLatestBlock captureStack tn this))))
  = requests (B.trace (super this)) ++ [req this (requestId tn)].
Proof.
  pose proof (updateLatestBlock_requests tn this) as [Hreq _].
  unfold checkForLatestBlock.
  destruct (_updateLatestBlock captureStack tn this) as [[v|e] this1];
    cbn [snd] in *; [|exact Hreq].
  unfold B.getLatestBlock.
  destruct (B.currentBlock (super this1)); cbn [snd super withSuper];
    [exact Hreq|].
  unfold B.addListener. cbn [snd]. rewrite notify_trace. exact Hreq.
Qed.

Lemma constructor_inv (opts : PollingBlockTrackerOptions)
    (this : PollingBlockTracker) :
  constructor captureStack (Some opts) = Normal this ->
  exists p,
    provider opts = Some p /\
    _provider this = p /\
    _pollingInterval this = numberOr (pollingInterval opts) (20 * sec) /\
    _retryTimeout this
    = numberOr (retryTimeout opts) (_pollingInterval this / 10) /\
    _keepEventLoopActive this = default true (keepEventLoopActive opts) /\
    _setSkipCacheFlag this = boolOrFalse (setSkipCacheFlag opts) /\
    super this
    = B.constructor
        {| B.blockResetDuration :=
             orUndefined (blockResetDuration opts) (pollingInterval opts) |}.
Proof.
  unfold constructor. cbv zeta iota.
  destruct (provider opts) as [p|]; [|intros H; discriminate H].
  intros [= <-]. exists p. cbn. destruct (keepEventLoopActive opts);
    repeat split; reflexivity.
Qed.

(** C8.  For a tracker built by the constructor, every request sent by the
    poll loop or by [checkForLatestBlock] is an object with [jsonrpc]
    ["2.0"], [method] ["eth_blockNumber"] and [params] [[]]; it has the
    property [skipCache], with value [true], exactly when the tracker was
    constructed with [setSkipCacheFlag: true], and no [skipCache] property
    otherwise. *)
Theorem every_request_is_eth_blockNumber
    (opts : PollingBlockTrackerOptions) :
  match constructor captureStack (Some opts) with
  | Throw _ => provider opts = None
  | Normal this =>
      let skipCache := _setSkipCacheFlag this in
      (skipCache = true <-> setSkipCacheFlag opts = Some true) /\
      (forall id : Z, wellFormedRequest skipCache (req this id)) /\
      (forall (before : list B.Op) (turns : list Turn),
         Forall (wellFormedRequest skipCache)
           (requests
              (B.trace
                 (super
                    (finalState
                       (_synchronize captureStack turns
                          (interfere before this))))))) /\
      (forall (before : list B.Op) (tn : Turn),
         Forall (wellFormedRequest skipCache)
           (requests
              (B.trace
                 (super
                    (snd (checkForLatestBlock captureStack tn
                            (interfere before this)))))))
  end.
Proof.
  destruct (constructor captureStack (Some opts)) as [this|e] eqn:Hctor.
  - apply constructor_inv in Hctor
      as (p & _ & _ & _ & _ & _ & Hflag & Hsuper).
    assert (Hempty : forall before,
              requests (B.trace (super (interfere before this))) = []).
    { intros before. unfold interfere. cbn [super withSuper].
      rewrite run_trace, Hsuper. reflexivity. }
    cbn zeta. split; [|split; [|split]].
    + rewrite Hflag. unfold boolOrFalse.
      destruct (setSkipCacheFlag opts) as [[|]|]; split; congruence.
    + intros id. apply req_wellFormed.
    + intros before turns.
      change (_setSkipCacheFlag this)
        with (_setSkipCacheFlag (interfere before this)).
      apply synchronize_requests. rewrite Hempty. constructor.
    + intros before tn. rewrite checkForLatestBlock_requests, Hempty.
      constructor; [|constructor].
      change (_setSkipCacheFlag this)
        with (_setSkipCacheFlag (interfere before this)).
      apply req_wellFormed.
  - unfold constructor in Hctor. cbv zeta iota in Hctor.
    destruct (provider opts); [discriminate Hctor|reflexivity].
Qed.

End Requests.

(* ===================================================================== *)
(** ** Theorems: construction *)
(* ===================================================================== *)

Section Construction.

Local Open Scope Q_scope.

Variable captureStack : string -> string.

Lemma numberOr_nonzero (n : option Q) (d : Q) :
  ~ d == 0 -> ~ numberOr n d == 0.
Proof.
  intros Hd. unfold numberOr. destruct n as [q|]; [|exact Hd].
  destruct (Qeq_bool q 0) eqn:Hq; [exact Hd|].
  intros H. apply Qeq_bool_iff in H. congruence.
Qed.

Lemma numberOr_zero (q d : Q) : q == 0 -> numberOr (Some q) d = d.
Proof.
  intros H. unfold numberOr. apply Qeq_bool_iff in H. rewrite H. reflexivity.
Qed.

(** C6.  Without a provider, be it that no options were passed or that the
    options name none, the constructor throws an [Error] with the message
    [PollingBlockTracker - no provider specified.]; no tracker comes into
    being, whatever the other options say. *)
Theorem constructor_requires_provider :
  (exists e,
     constructor captureStack None = Throw e /\
     Js.get e "message"
     = Some (Js.Str "PollingBlockTracker - no provider specified.")) /\
  (forall (interval retry reset : option Q) (keep skip : option bool),
     exists e,
       constructor captureStack
         (Some {| provider := None; pollingInterval := interval;
                  retryTimeout := retry; keepEventLoopActive := keep;
                  setSkipCacheFlag := skip; blockResetDuration := reset |})
       = Throw e /\
       Js.get e "message"
       = Some (Js.Str "PollingBlockTracker - no provider specified.")).
Proof.
  split; [|intros interval retry reset keep skip];
    eexists; split; reflexivity.
Qed.

(** C7.  With a provider the constructor returns a tracker, not running;
    an unspecified [pollingInterval] becomes 20000, an unspecified
    [retryTimeout] a tenth of the polling interval, an unspecified
    [keepEventLoopActive] true, an unspecified [setSkipCacheFlag] false, and
    an unspecified [blockResetDuration] is passed to the super class as the
    [pollingInterval] that was given. *)
Theorem constructor_defaults (opts : PollingBlockTrackerOptions)
    (p : Provider) :
  provider opts = Some p ->
  exists this,
    constructor captureStack (Some opts) = Normal this /\
    _provider this = p /\
    B.isRunning (super this) = false /\
    (pollingInterval opts = None -> _pollingInterval this = 20000) /\
    (retryTimeout opts = None ->
     _retryTimeout this = _pollingInterval this / 10) /\
    (keepEventLoopActive opts = None -> _keepEventLoopActive this = true) /\
    (setSkipCacheFlag opts = None -> _setSkipCacheFlag this = false) /\
    (blockResetDuration opts = None ->
     B.evictionDuration (super this) = pollingInterval opts).
Proof.
  intros Hp. unfold constructor. cbv zeta iota. rewrite Hp.
  eexists. split; [reflexivity|]. cbn.
  repeat split; intros H; rewrite H; reflexivity.
Qed.

(** C10.  A [pollingInterval] of zero is replaced by 20000, so the polling
    interval in use is never zero, and a [retryTimeout] of zero is replaced
    by a tenth of the polling interval; a [blockResetDuration], zero
    included, reaches the super class as given. *)
Theorem constructor_zero_intervals (opts : PollingBlockTrackerOptions)
    (p : Provider) :
  provider opts = Some p ->
  exists this,
    constructor captureStack (Some opts) = Normal this /\
    (forall q, pollingInterval opts = Some q -> q == 0 ->
               _pollingInterval this = 20000) /\
    (forall q, retryTimeout opts = Some q -> q == 0 ->
               _retryTimeout this = _pollingInterval this / 10) /\
    (forall q, blockResetDuration opts = Some q ->
               B.evictionDuration (super this) = Some q) /\
    ~ _pollingInterval this == 0.
Proof.
  intros Hp. unfold constructor. cbv zeta iota. rewrite Hp.
  eexists. split; [reflexivity|].
  cbn [_pollingInterval _retryTimeout super].
  split; [|split; [|split]].
  - intros q Hq Hz. rewrite Hq, numberOr_zero by exact Hz. reflexivity.
  - intros q Hq Hz. rewrite Hq at 1. apply numberOr_zero, Hz.
  - intros q Hq. cbn. rewrite Hq. reflexivity.
  - apply numberOr_nonzero. discriminate.
Qed.

End Construction.

(** C7, for options that name a provider and nothing else. *)
Lemma constructor_defaults_witness :
  provider providerOnly = Some (ProviderRef 0) /\
  exists this,
    constructor sampleStack (Some providerOnly) = Normal this /\
    _provider this = ProviderRef 0 /\
    B.isRunning (super this) = false /\
    (pollingInterval providerOnly = None -> _pollingInterval this = 20000%Q) /\
    (retryTimeout providerOnly = None ->
     _retryTimeout this = (_pollingInterval this / 10)%Q) /\
    (keepEventLoopActive providerOnly = None ->
     _keepEventLoopActive this = true) /\
    (setSkipCacheFlag providerOnly = None -> _setSkipCacheFlag this = false) /\
    (blockResetDuration providerOnly = None ->
     B.evictionDuration (super this) = pollingInterval providerOnly).
Proof.
  split; [reflexivity|].
  exact (constructor_defaults sampleStack providerOnly (ProviderRef 0) eq_refl).
Defined.

(** C10, for options whose three durations are all zero. *)
Lemma constructor_zero_intervals_witness :
  let opts :=
    {| provider := Some (ProviderRef 0); pollingInterval := Some 0%Q;
       retryTimeout := Some 0%Q; keepEventLoopActive := None;
       setSkipCacheFlag := None; blockResetDuration := Some 0%Q |} in
  provider opts = Some (ProviderRef 0) /\
  exists this,
    constructor sampleStack (Some opts) = Normal this /\
    (forall q, pollingInterval opts = Some q -> (q == 0)%Q ->
               _pollingInterval this = 20000%Q) /\
    (forall q, retryTimeout opts = Some q -> (q == 0)%Q ->
               _retryTimeout this = (_pollingInterval this / 10)%Q) /\
    (forall q, blockResetDuration opts = Some q ->
               B.evictionDuration (super this) = Some q) /\
    ~ (_pollingInterval this == 0)%Q.
Proof.
  intros opts. split; [reflexivity|].
  exact (constructor_zero_intervals sampleStack opts (ProviderRef 0) eq_refl).
Defined.

(* ===================================================================== *)
(** ** Theorems: what stops the loop, and what does not *)
(* ===================================================================== *)

Section Stopping.

Variable captureStack : string -> string.

(** A fetch rejected with [undefined] or [null] makes the [catch] handler
    itself throw: nothing is emitted, no timer is set, and the loop is gone
    although the tracker still counts as running. *)
Lemma synchronize_crashes_on_nullish (e : Js.value) (id : Z)
    (rest : list Turn) (this : PollingBlockTracker) :
  Js.nullish e = true ->
  B.isRunning (super this) = true ->
  exists this',
    _synchronize captureStack (quiet id (Rejects e) :: rest) this
    = Crashed this' /\
    B.trace (super this') = B.trace (super this) ++ [Sent (req this id)] /\
    B.isRunning (super this') = true.
Proof.
  intros Hn Hrun. eexists. split.
  - apply synchronize_crash; [exact Hrun|].
    unfold loopBody, _updateLatestBlock, _fetchLatestBlock. cbn.
    rewrite (cause_nullish e Hn). reflexivity.
  - unfold afterUpdate, _updateLatestBlock, _fetchLatestBlock. cbn.
    split; [reflexivity|exact Hrun].
Qed.

(** C3, at the input where the code departs from it.  The provider throws
    [undefined] (or [null]) in the first turn of a running tracker: the loop
    ends with a rejection, whatever turns were to follow; the trace holds the
    request and nothing else, so no [error] event was emitted and no retry
    was scheduled. *)
Theorem synchronize_dies_on_nullish_rejection (rest : list Turn) :
  B.isRunning (super listening) = true /\
  (exists this',
     _synchronize captureStack (quiet 1 (Rejects Js.Undefined) :: rest)
       listening = Crashed this' /\
     B.trace (super this') = [Sent (req listening 1)] /\
     emissions "error" (B.trace (super this')) = [] /\
     B.isRunning (super this') = true) /\
  (exists this',
     _synchronize captureStack (quiet 1 (Rejects Js.Null) :: rest)
       listening = Crashed this' /\
     B.trace (super this') = [Sent (req listening 1)] /\
     emissions "error" (B.trace (super this')) = [] /\
     B.isRunning (super this') = true).
Proof.
  assert (Hrun : B.isRunning (super listening) = true)
    by (vm_compute; reflexivity).
  assert (Htr : B.trace (super listening) = []) by (vm_compute; reflexivity).
  split; [exact Hrun|].
  split.
  - destruct (synchronize_crashes_on_nullish Js.Undefined 1 rest listening
                eq_refl Hrun) as (this' & Hs & Ht & Hr).
    rewrite Htr in Ht. exists this'. rewrite Ht. auto.
  - destruct (synchronize_crashes_on_nullish Js.Null 1 rest listening
                eq_refl Hrun) as (this' & Hs & Ht & Hr).
    rewrite Htr in Ht. exists this'. rewrite Ht. auto.
Qed.


End Stopping.



(* ===================================================================== *)
(** ** The scenarios of the test suite *)
(* ===================================================================== *)

(** "should take a listener that is not called after the latest block is
    fetched if the new block number is less than the current block number":
    the provider answers [0x1], then [0x0]. *)
Example latest_listener_not_called_for_smaller_block :
  let turns := [quiet 1 (Responds (JsonRpcSuccess "0x1"));
                quiet 2 (Responds (JsonRpcSuccess "0x0"))] in
  let this' := finalState (_synchronize sampleStack turns listening) in
  emissions "latest" (B.trace (super this')) = [Emitted "latest" [Js.Str "0x1"]]
  /\ B.getCurrentBlock (super this') = Some "0x1".
Proof. vm_compute. split; reflexivity. Qed.

(** "should emit the error event and should not throw if the request for
    the latest block number returns an error response": [getLatestBlock]
    starts the tracker, the first answer is an error payload, the second is
    [0x0]; one [error] event, then the block, then the tracker stops. *)
Example getLatestBlock_survives_error_response :
  let boom := {| code := (-32000)%Z; message := "boom" |} in
  let turns := [quiet 1 (Responds (JsonRpcFailure boom));
                quiet 2 (Responds (JsonRpcSuccess "0x0"));
                quiet 3 (Responds (JsonRpcSuccess "0x1"))] in
  let waiting := withSuper (fun st => snd (B.getLatestBlock st)) fresh in
  B.isRunning (super waiting) = true /\
  exists this' e,
    _synchronize sampleStack turns waiting = Exited this' /\
    emissions "error" (B.trace (super this')) = [Emitted "error" [e]] /\
    Js.get e "message"
    = Some (Js.Str
              ("PollingBlockTracker - encountered an error while attempting to update latest block:"
               +:+ nl +:+
               "Error: PollingBlockTracker - encountered error fetching block:"
               +:+ nl +:+ "boom" +:+ nl +:+ "    at PollingBlockTracker")) /\
    B.getCurrentBlock (super this') = Some "0x0" /\
    length (requests (B.trace (super this'))) = 2%nat.
Proof.
  intros boom turns waiting. split; [vm_compute; reflexivity|].
  eexists. eexists. split; [vm_compute; reflexivity|].
  vm_compute. repeat split; reflexivity.
Qed.

(** "... the provider throws an error that is a string": the raw value
    follows the fixed text. *)
Example thrown_string_is_reported :
  let turns := [quiet 1 (Rejects (Js.Str "boom"))] in
  exists this' e,
    _synchronize sampleStack turns listening = Pending this' /\
    B.trace (super this')
    = [Sent (req listening 1); Emitted "error" [e];
       TimerSet (20 * sec / 10) false] /\
    Js.get e "message"
    = Some (Js.Str
              ("PollingBlockTracker - encountered an error while attempting to update latest block:"
               +:+ nl +:+ "boom")).
Proof.
  intros turns. eexists. eexists. split; [vm_compute; reflexivity|].
  vm_compute. split; reflexivity.
Qed.

(** "should stop the block tracker when all previously added latest and
    sync events are removed specifically", and "some other event ... should
    not stop the block tracker". *)
Example removeAllListeners_specifically :
  let st0 := B.constructor {| B.blockResetDuration := None |} in
  let st1 := B.run [B.On "latest"; B.On "sync"] st0 in
  let st2 := B.removeAllListeners (Some "latest") st1 in
  let st3 := B.removeAllListeners (Some "sync") st2 in
  let st4 := B.run [B.On "latest"; B.On "somethingElse";
                    B.RemoveListener "somethingElse" 1] st0 in
  B.isRunning st0 = false /\ B.isRunning st1 = true /\
  B.isRunning st2 = true /\ B.isRunning st3 = false /\
  B.isRunning st4 = true.
Proof. vm_compute. repeat split; reflexivity. Qed.

(** "should cause the request to get the latest block to be made with
    skipCache: true if setSkipCacheFlag: true is given". *)
Example request_with_skipCache :
  exists this,
    constructor sampleStack
      (Some {| provider := Some (ProviderRef 0); pollingInterval := None;
               retryTimeout := None; keepEventLoopActive := None;
               setSkipCacheFlag := Some true; blockResetDuration := None |})
    = Normal this /\
    req this 7
    = Js.Obj [("jsonrpc", Js.Str "2.0"); ("id", Js.Num 7);
              ("method", Js.Str "eth_blockNumber"); ("params", Js.Arr []);
              ("skipCache", Js.Bool true)] /\
    req fresh 7
    = Js.Obj [("jsonrpc", Js.Str "2.0"); ("id", Js.Num 7);
              ("method", Js.Str "eth_blockNumber"); ("params", Js.Arr [])].
Proof. eexists. split; [reflexivity|]. split; reflexivity. Qed.

(** The options naming only a provider construct [fresh]. *)
Example constructor_providerOnly :
  constructor sampleStack (Some providerOnly) = Normal fresh.
Proof. reflexivity. Qed.

(* ===================================================================== *)
(** ** Theorems: one pass of the loop *)
(* ===================================================================== *)

Section Passes.

Variable captureStack : string -> string.

Lemma cause_none (e : Js.value) : cause e = None -> Js.nullish e = true.
Proof.
  intros Hc. destruct (Js.nullish e) eqn:Hn; [reflexivity|].
  destruct (cause_defined e Hn) as (stack & msg & _ & _ & Hsome).
  congruence.
Qed.

(** A pass changes the inherited state only; the fields of the class stay
    as the constructor set them. *)
Lemma loopBody_config (tn : Turn) (this this' : PollingBlockTracker) :
  loopBody captureStack tn this = Some this' ->
  this' = withSuper (fun _ => super this') this.
Proof.
  unfold loopBody, _updateLatestBlock, _fetchLatestBlock.
  destruct (reply tn) as [[result|error]|e].
  - intros [= <-]. destruct this; reflexivity.
  - destruct (cause _); [|discriminate].
    intros [= <-]. destruct this; reflexivity.
  - destruct (cause e); [|discriminate].
    intros [= <-]. destruct this; reflexivity.
Qed.

Lemma loopBody_req (tn : Turn) (this this' : PollingBlockTracker) (id : Z) :
  loopBody captureStack tn this = Some this' -> req this' id = req this id.
Proof.
  intros H. rewrite (loopBody_config tn this this' H). reflexivity.
Qed.

Lemma loopBody_sleepOf (tn tn' : Turn) (this this' : PollingBlockTracker) :
  loopBody captureStack tn this = Some this' ->
  sleepOf this' tn' = sleepOf this tn'.
Proof.
  intros H. rewrite (loopBody_config tn this this' H). reflexivity.
Qed.

Lemma succeeded_fetch (tn : Turn) (this : PollingBlockTracker) :
  succeeded tn = true <->
  exists latestBlock,
    fst (_fetchLatestBlock captureStack tn this) = Normal latestBlock.
Proof.
  rewrite fetch_result. unfold succeeded.
  destruct (reply tn) as [[result|error]|e]; split;
    try discriminate; try (intros [v Hv]; discriminate Hv); eauto.
Qed.

(** The pass in which the [catch] handler throws: the provider rejected
    with [undefined] or [null]; the request is all that happened. *)
Lemma loopBody_none (tn : Turn) (this : PollingBlockTracker) :
  loopBody captureStack tn this = None ->
  rejectsNullish tn = true /\
  B.trace (super (afterUpdate captureStack tn this))
  = B.trace (super this) ++ [Sent (req this (requestId tn))] /\
  B.currentBlock (super (afterUpdate captureStack tn this))
  = B.currentBlock (super this).
Proof.
  pose proof (fetch_trace captureStack tn this) as Htr.
  pose proof (fetch_currentBlock captureStack tn this) as Hcb.
  unfold loopBody, afterUpdate, _updateLatestBlock, rejectsNullish.
  unfold _fetchLatestBlock in *.
  destruct (reply tn) as [[result|error]|e]; cbn [fst snd] in *.
  - discriminate.
  - discriminate.
  - destruct (cause e) eqn:Hc; [discriminate|].
    intros _. split; [apply cause_none, Hc|]. split; assumption.
Qed.

(** What the super class's cache write adds to the trace: nothing, or
    [sync] followed by [latest]. *)
Lemma newPotentialLatest_trace (newBlock : string) (st : B.State) :
  (B._newPotentialLatest newBlock st = st) \/
  (B.trace (B._newPotentialLatest newBlock st)
   = B.trace st
     ++ [Emitted "sync"
           [Js.Obj [("oldBlock", B.blockOrNull (B.currentBlock st));
                    ("newBlock", Js.Str newBlock)]];
         Emitted "latest" [Js.Str newBlock]]
   /\ B.currentBlock (B._newPotentialLatest newBlock st) = Some newBlock).
Proof.
  unfold B._newPotentialLatest.
  destruct (B.currentBlock st) as [cur|] eqn:Hcur;
    [destruct (B.strictlyGreater newBlock cur)|];
    [right|left; reflexivity|right];
    (split; [rewrite update_trace, Hcur; reflexivity
            |apply update_currentBlock]).
Qed.

(** The trace of a completed pass, by the provider's answer. *)
Lemma loopBody_trace (tn : Turn) (this this' : PollingBlockTracker) :
  loopBody captureStack tn this = Some this' ->
  let sent := Sent (req this (requestId tn)) in
  let sleep := TimerSet (fst (sleepOf this tn)) (snd (sleepOf this tn)) in
  (succeeded tn = true /\
   exists written,
     (written = [] \/
      exists a b, written = [Emitted "sync" a; Emitted "latest" b]) /\
     B.trace (super this')
     = B.trace (super this)
       ++ sent :: written
       ++ [sleep; Emitted "_waitingForNextIteration" []])
  \/
  (succeeded tn = false /\
   exists e,
     B.trace (super this')
     = B.trace (super this) ++ [sent; Emitted "error" [e]; sleep] /\
     B.currentBlock (super this') = B.currentBlock (super this)).
Proof.
  intros Hbody sent sleep. subst sent sleep. unfold sleepOf. cbn [fst snd].
  destruct (succeeded tn) eqn:Hs.
  - left. split; [reflexivity|].
    apply (succeeded_fetch tn this) in Hs as [latestBlock Hf].
    destruct (loopBody_fetch_succeeded captureStack tn this latestBlock Hf)
      as (this2 & Hb & Htr & _).
    rewrite Hbody in Hb. injection Hb as <-.
    rewrite Htr.
    destruct (newPotentialLatest_trace latestBlock
                (super (snd (_fetchLatestBlock captureStack tn this))))
      as [Hsame|[Hw _]].
    + exists []. split; [left; reflexivity|].
      rewrite Hsame, fetch_trace, <- app_assoc. reflexivity.
    + eexists. split; [right; eexists; eexists; reflexivity|].
      rewrite Hw, fetch_trace, <- !app_assoc. reflexivity.
  - right. split; [reflexivity|].
    destruct (fst (_fetchLatestBlock captureStack tn this)) as [v|error] eqn:Hf.
    + assert (succeeded tn = true) by (apply (succeeded_fetch tn this); eauto).
      congruence.
    + destruct (cause error) as [c|] eqn:Hc.
      * destruct (loopBody_fetch_failed captureStack tn this error c Hf Hc)
          as (this2 & Hb & Htr & Hcb).
        rewrite Hbody in Hb. injection Hb as <-.
        eexists. split; [exact Htr|exact Hcb].
      * exfalso. revert Hbody. unfold loopBody, _updateLatestBlock.
        destruct (_fetchLatestBlock captureStack tn this) as [[v|e] this1];
          cbn [fst] in Hf; [discriminate|].
        injection Hf as ->. rewrite Hc. discriminate.
Qed.

End Passes.

(* ===================================================================== *)
(** ** Theorems: whole runs of the loop *)
(* ===================================================================== *)

Section Runs.

Variable captureStack : string -> string.

(** Every execution of [_synchronize] is a run. *)
Lemma synchronize_Run (turns : list Turn) (this : PollingBlockTracker) :
  exists started done,
    Run captureStack turns this started done
      (_synchronize captureStack turns this).
Proof.
  revert this. induction turns as [|tn rest IH]; intros this.
  - simpl. destruct (B._isRunning (super this)) eqn:Hrun; simpl.
    + exists [], []. constructor. exact Hrun.
    + exists [], []. constructor. exact Hrun.
  - simpl. destruct (B._isRunning (super this)) eqn:Hrun; simpl.
    + destruct (loopBody captureStack tn this) as [this'|] eqn:Hbody.
      * destruct (IH this') as (started & done & Hr).
        exists (tn :: started), (tn :: done).
        econstructor; eassumption.
      * exists [tn], []. constructor; assumption.
    + exists [], []. constructor. exact Hrun.
Qed.

(** The passes follow the script: the completed ones, then at most one
    crashed one, then the turns never reached. *)
Lemma Run_script (turns started done : list Turn)
    (this : PollingBlockTracker) (o : LoopOutcome) :
  Run captureStack turns this started done o ->
  exists rest,
    turns = started ++ rest /\
    match o with
    | Exited _ => started = done
    | Pending _ => started = done /\ rest = []
    | Crashed _ =>
        exists tn, started = done ++ [tn] /\ rejectsNullish tn = true
    end.
Proof.
  induction 1 as [turns this Hrun|this Hrun|tn rest this Hrun Hbody
                 |tn rest started done this this' o Hrun Hbody Hr IH].
  - exists turns. split; reflexivity.
  - exists []. repeat split; reflexivity.
  - exists rest. split; [reflexivity|]. exists tn. split; [reflexivity|].
    apply (loopBody_none captureStack tn this Hbody).
  - destruct IH as (rest' & -> & Ho). exists rest'. split; [reflexivity|].
    destruct o.
    + congruence.
    + destruct Ho as [-> ->]. split; reflexivity.
    + destruct Ho as (tn' & -> & Hn). exists tn'. split; [reflexivity|exact Hn].
Qed.

Lemma Run_flag (turns started done : list Turn)
    (this : PollingBlockTracker) (o : LoopOutcome) :
  Run captureStack turns this started done o ->
  match o with
  | Exited this' => B.isRunning (super this') = false
  | Pending this' => B.isRunning (super this') = true
  | Crashed _ => True
  end.
Proof. induction 1; auto. Qed.

Lemma Run_requests (turns started done : list Turn)
    (this : PollingBlockTracker) (o : LoopOutcome) :
  Run captureStack turns this started done o ->
  requests (B.trace (super (finalState o)))
  = requests (B.trace (super this))
    ++ map (fun tn => req this (requestId tn)) started.
Proof.
  induction 1 as [turns this Hrun|this Hrun|tn rest this Hrun Hbody
                 |tn rest started done this this' o Hrun Hbody Hr IH];
    cbn [finalState map].
  - rewrite app_nil_r. reflexivity.
  - rewrite app_nil_r. reflexivity.
  - destruct (loopBody_none captureStack tn this Hbody) as (_ & Htr & _).
    rewrite Htr, requests_app. reflexivity.
  - rewrite IH.
    destruct (loopBody_requests captureStack tn this this' Hbody) as [-> _].
    rewrite <- app_assoc. cbn [app]. do 2 f_equal.
    apply map_ext. intros tn'. apply (loopBody_req captureStack tn), Hbody.
Qed.

Lemma timers_app (tr1 tr2 : list Effect) :
  timers (tr1 ++ tr2) = timers tr1 ++ timers tr2.
Proof. unfold timers. apply omap_app. Qed.

Lemma loopBody_timers (tn : Turn) (this this' : PollingBlockTracker) :
  loopBody captureStack tn this = Some this' ->
  timers (B.trace (super this'))
  = timers (B.trace (super this)) ++ [sleepOf this tn].
Proof.
  intros Hbody.
  destruct (loopBody_trace captureStack tn this this' Hbody)
    as [(_ & written & Hw & ->)|(_ & e & -> & _)].
  - rewrite timers_app. f_equal. unfold sleepOf. cbn [fst snd].
    destruct Hw as [->|(a & b & ->)]; reflexivity.
  - rewrite timers_app. f_equal.
Qed.

Lemma Run_timers (turns started done : list Turn)
    (this : PollingBlockTracker) (o : LoopOutcome) :
  Run captureStack turns this started done o ->
  timers (B.trace (super (finalState o)))
  = timers (B.trace (super this)) ++ map (sleepOf this) done.
Proof.
  induction 1 as [turns this Hrun|this Hrun|tn rest this Hrun Hbody
                 |tn rest started done this this' o Hrun Hbody Hr IH];
    cbn [finalState map].
  - rewrite app_nil_r. reflexivity.
  - rewrite app_nil_r. reflexivity.
  - destruct (loopBody_none captureStack tn this Hbody) as (_ & Htr & _).
    rewrite Htr, timers_app. simpl. rewrite app_nil_r. reflexivity.
  - rewrite IH, (loopBody_timers tn this this' Hbody), <- app_assoc.
    cbn [app]. do 2 f_equal.
    apply map_ext. intros tn'. apply (loopBody_sleepOf captureStack tn), Hbody.
Qed.

Lemma emissions_app (kind : string) (tr1 tr2 : list Effect) :
  emissions kind (tr1 ++ tr2) = emissions kind tr1 ++ emissions kind tr2.
Proof. unfold emissions. apply List.filter_app. Qed.

Lemma loopBody_signals (tn : Turn) (this this' : PollingBlockTracker) :
  loopBody captureStack tn this = Some this' ->
  length (emissions "error" (B.trace (super this')))
  = (length (emissions "error" (B.trace (super this)))
     + if succeeded tn then 0 else 1)%nat
  /\
  length (emissions "_waitingForNextIteration" (B.trace (super this')))
  = (length (emissions "_waitingForNextIteration" (B.trace (super this)))
     + if succeeded tn then 1 else 0)%nat.
Proof.
  intros Hbody.
  destruct (loopBody_trace captureStack tn this this' Hbody)
    as [(-> & written & Hw & ->)|(-> & e & -> & _)];
    rewrite !emissions_app, !length_app.
  - destruct Hw as [->|(a & b & ->)]; simpl; lia.
  - simpl. lia.
Qed.

Lemma Run_signals (turns started done : list Turn)
    (this : PollingBlockTracker) (o : LoopOutcome) :
  Run captureStack turns this started done o ->
  length (emissions "error" (B.trace (super (finalState o))))
  = (length (emissions "error" (B.trace (super this)))
     + length (List.filter (fun tn => negb (succeeded tn)) done))%nat
  /\
  length (emissions "_waitingForNextIteration"
            (B.trace (super (finalState o))))
  = (length (emissions "_waitingForNextIteration" (B.trace (super this)))
     + length (List.filter succeeded done))%nat.
Proof.
  induction 1 as [turns this Hrun|this Hrun|tn rest this Hrun Hbody
                 |tn rest started done this this' o Hrun Hbody Hr IH];
    cbn [finalState List.filter length].
  - lia.
  - lia.
  - destruct (loopBody_none captureStack tn this Hbody) as (_ & Htr & _).
    rewrite Htr, !emissions_app, !length_app. simpl. lia.
  - destruct IH as [IHe IHw].
    destruct (loopBody_signals tn this this' Hbody) as [He Hw].
    rewrite IHe, IHw, He, Hw.
    destruct (succeeded tn); cbn [negb length]; lia.
Qed.

Lemma Run_failures_keep_cache (turns started done : list Turn)
    (this : PollingBlockTracker) (o : LoopOutcome) :
  Run captureStack turns this started done o ->
  Forall (fun tn => succeeded tn = false) turns ->
  B.currentBlock (super (finalState o)) = B.currentBlock (super this) /\
  emissions "sync" (B.trace (super (finalState o)))
  = emissions "sync" (B.trace (super this)) /\
  emissions "latest" (B.trace (super (finalState o)))
  = emissions "latest" (B.trace (super this)).
Proof.
  induction 1 as [turns this Hrun|this Hrun|tn rest this Hrun Hbody
                 |tn rest started done this this' o Hrun Hbody Hr IH];
    cbn [finalState]; intros Hall.
  - auto.
  - auto.
  - destruct (loopBody_none captureStack tn this Hbody) as (_ & Htr & Hcb).
    rewrite Htr, Hcb, !emissions_app. simpl. rewrite !app_nil_r. auto.
  - inversion Hall as [|? ? Hfail Hrest]; subst.
    destruct (IH Hrest) as (-> & -> & ->).
    destruct (loopBody_trace captureStack tn this this' Hbody)
      as [(Hs & _)|(_ & e & -> & ->)]; [congruence|].
    rewrite !emissions_app. simpl. rewrite !app_nil_r. auto.
Qed.

End Runs.

(* ===================================================================== *)
(** ** Further properties of the class *)
(* ===================================================================== *)

Section Further.

Local Open Scope Q_scope.

Variable captureStack : string -> string.

Lemma numberOr_given (q d : Q) : ~ q == 0 -> numberOr (Some q) d = q.
Proof.
  intros Hq. unfold numberOr. destruct (Qeq_bool q 0) eqn:H; [|reflexivity].
  apply Qeq_bool_iff in H. contradiction.
Qed.

(** X1.  The constructor stores what it is given: a polling interval or a
    retry timeout other than zero, negative ones included, whatever the
    other is; [keepEventLoopActive] and [setSkipCacheFlag], [false]
    included; and a [blockResetDuration] goes to the super class whatever
    the polling interval is. *)
Theorem constructor_keeps_explicit_options
    (opts : PollingBlockTrackerOptions) (p : Provider) :
  provider opts = Some p ->
  exists this,
    constructor captureStack (Some opts) = Normal this /\
    (forall q, pollingInterval opts = Some q -> ~ q == 0 ->
               _pollingInterval this = q) /\
    (forall q, retryTimeout opts = Some q -> ~ q == 0 ->
               _retryTimeout this = q) /\
    (forall b, keepEventLoopActive opts = Some b ->
               _keepEventLoopActive this = b) /\
    (forall b, setSkipCacheFlag opts = Some b -> _setSkipCacheFlag this = b) /\
    (forall d, blockResetDuration opts = Some d ->
               B.evictionDuration (super this) = Some d).
Proof.
  intros Hp. unfold constructor. cbv zeta iota. rewrite Hp.
  eexists. split; [reflexivity|].
  cbn [_pollingInterval _retryTimeout _keepEventLoopActive _setSkipCacheFlag
       super].
  split; [|split; [|split; [|split]]].
  - intros q Hq Hnz. rewrite Hq. apply numberOr_given, Hnz.
  - intros q Hq Hnz. rewrite Hq. apply numberOr_given, Hnz.
  - intros b Hb. rewrite Hb. reflexivity.
  - intros b Hb. rewrite Hb. destruct b; reflexivity.
  - intros d Hd. cbn. rewrite Hd. reflexivity.
Qed.

(** X2.  A tracker the constructor returns has done nothing yet: no
    request, no timer, no emission, and a null cache; and [_synchronize] on
    it returns at once, the tracker untouched, whatever the provider would
    answer. *)
Theorem constructed_tracker_is_idle (opts : PollingBlockTrackerOptions) :
  match constructor captureStack (Some opts) with
  | Throw _ => True
  | Normal this =>
      B.trace (super this) = [] /\
      B.getCurrentBlock (super this) = None /\
      forall turns : list Turn,
        _synchronize captureStack turns this = Exited this
  end.
Proof.
  destruct (constructor captureStack (Some opts)) as [this|e] eqn:Hctor;
    [|exact I].
  apply constructor_inv in Hctor as (p & _ & _ & _ & _ & _ & _ & Hsuper).
  rewrite Hsuper. split; [reflexivity|]. split; [reflexivity|].
  intros turns. apply synchronize_stopped. rewrite Hsuper. reflexivity.
Qed.

End Further.

Section FurtherLoop.

Variable captureStack : string -> string.

Lemma loopBody_error_event (tn : Turn) (this : PollingBlockTracker)
    (error c : Js.value) :
  fst (_fetchLatestBlock captureStack tn this) = Throw error ->
  cause error = Some c ->
  exists this' e,
    loopBody captureStack tn this = Some this' /\
    B.trace (super this')
    = B.trace (super this)
      ++ [Sent (req this (requestId tn)); Emitted "error" [e];
          TimerSet (_retryTimeout this) (negb (_keepEventLoopActive this))] /\
    Js.get e "message" = Some (Js.Str (updateFailed +:+ Js.toString c)).
Proof.
  intros Hf Hc.
  destruct (loopBody_fetch_failed captureStack tn this error c Hf Hc)
    as (this' & Hb & Htr & _).
  exists this'. eexists. split; [exact Hb|]. split; [exact Htr|].
  apply newError_message.
Qed.

(** X3.  The message of the [error] event, by what the fetch failed with.
    An error payload is reported through the stack of the [Error] that
    [_fetchLatestBlock] made of it; a thrown string is reported as it is; a
    thrown object is reported by its [stack] when it has one, even if it has
    a [message] too, and by its [message] when it has no [stack].  In each
    case the pass sends the request, emits this one event and sets the
    retry timer, in that order. *)
Theorem error_event_message (id : Z) (wf ws : list B.Op)
    (this : PollingBlockTracker) :
  let pass r :=
    loopBody captureStack
      {| requestId := id; reply := r; whileFetching := wf;
         whileSleeping := ws |} this in
  let reported this' text :=
    exists e,
      B.trace (super this')
      = B.trace (super this)
        ++ [Sent (req this id); Emitted "error" [e];
            TimerSet (_retryTimeout this) (negb (_keepEventLoopActive this))]
      /\ Js.get e "message" = Some (Js.Str (updateFailed +:+ text)) in
  (forall error : JsonRpcError,
     exists this',
       pass (Responds (JsonRpcFailure error)) = Some this' /\
       reported this'
         (captureStack
            ("PollingBlockTracker - encountered error fetching block:"
             +:+ nl +:+ message error))) /\
  (forall s : string,
     exists this',
       pass (Rejects (Js.Str s)) = Some this' /\ reported this' s) /\
  (forall (stack : string) (others : list (string * Js.value)),
     exists this',
       pass (Rejects (Js.Obj (("stack", Js.Str stack) :: others)))
       = Some this' /\
       reported this' stack) /\
  (forall msg : string,
     exists this',
       pass (Rejects (Js.Obj [("message", Js.Str msg)])) = Some this' /\
       reported this' msg).
Proof.
  intros pass reported. subst pass reported. cbv beta.
  repeat split; intros.
  - edestruct (loopBody_error_event
                 {| requestId := id;
                    reply := Responds (JsonRpcFailure error);
                    whileFetching := wf; whileSleeping := ws |} this)
      as (this' & e & Hb & Htr & Hm); [reflexivity|reflexivity|].
    exists this'. split; [exact Hb|]. exists e. split; [exact Htr|exact Hm].
  - edestruct (loopBody_error_event
                 {| requestId := id; reply := Rejects (Js.Str s);
                    whileFetching := wf; whileSleeping := ws |} this)
      as (this' & e & Hb & Htr & Hm); [reflexivity|reflexivity|].
    exists this'. split; [exact Hb|]. exists e. split; [exact Htr|exact Hm].
  - edestruct (loopBody_error_event
                 {| requestId := id;
                    reply := Rejects (Js.Obj (("stack", Js.Str stack) :: others));
                    whileFetching := wf; whileSleeping := ws |} this)
      as (this' & e & Hb & Htr & Hm); [reflexivity|reflexivity|].
    exists this'. split; [exact Hb|]. exists e. split; [exact Htr|exact Hm].
  - edestruct (loopBody_error_event
                 {| requestId := id;
                    reply := Rejects (Js.Obj [("message", Js.Str msg)]);
                    whileFetching := wf; whileSleeping := ws |} this)
      as (this' & e & Hb & Htr & Hm); [reflexivity|reflexivity|].
    exists this'. split; [exact Hb|]. exists e. split; [exact Htr|exact Hm].
Qed.


(** How a run can end, and why. *)
Lemma synchronize_outcome (turns : list Turn) (this : PollingBlockTracker) :
  match _synchronize captureStack turns this with
  | Exited this' => B.isRunning (super this') = false
  | Pending this' => B.isRunning (super this') = true
  | Crashed _ => exists tn, In tn turns /\ rejectsNullish tn = true
  end.
Proof.
  destruct (synchronize_Run captureStack turns this) as (started & done & Hr).
  pose proof (Run_flag captureStack _ _ _ _ _ Hr) as Hflag.
  pose proof (Run_script captureStack _ _ _ _ _ Hr) as (rest & Hturns & Ho).
  destruct (_synchronize captureStack turns this); try exact Hflag.
  destruct Ho as (tn & -> & Hn). exists tn. split; [|exact Hn].
  rewrite Hturns. apply in_or_app. left. apply in_or_app. right. left.
  reflexivity.
Qed.

(** X5.  [_synchronize] returns only on seeing [_isRunning] false: when it
    has returned the tracker is stopped, and when the script runs out with
    the loop alive the tracker is running. *)
Theorem synchronize_returns_only_when_stopped (turns : list Turn)
    (this : PollingBlockTracker) :
  match _synchronize captureStack turns this with
  | Exited this' => B.isRunning (super this') = false
  | Pending this' => B.isRunning (super this') = true
  | Crashed _ => True
  end.
Proof.
  pose proof (synchronize_outcome turns this) as H.
  destruct (_synchronize captureStack turns this); auto.
Qed.

Lemma reportable_not_nullish (tn : Turn) :
  reportable tn = true -> rejectsNullish tn = false.
Proof.
  unfold reportable, rejectsNullish.
  destruct (reply tn) as [res|e]; [reflexivity|].
  destruct (Js.nullish e) eqn:Hn; [|reflexivity].
  rewrite (cause_nullish e Hn). discriminate.
Qed.

(** X6.  The loop outlives every failure whose report is a string: on a
    script in which each turn is an answer of the provider (a block or an
    error payload) or a rejection with a thrown string, with an object that
    has a string [stack], or with an object that has no [stack] and a string
    [message], [_synchronize] never ends by an exception; it returns or is
    still looping. *)
Theorem synchronize_survives_reportable_failures (turns : list Turn)
    (this : PollingBlockTracker) :
  Forall (fun tn => reportable tn = true) turns ->
  exists this',
    _synchronize captureStack turns this = Exited this' \/
    _synchronize captureStack turns this = Pending this'.
Proof.
  intros Hall.
  pose proof (synchronize_outcome turns this) as H.
  destruct (_synchronize captureStack turns this) as [t|t|t]; eauto.
  destruct H as (tn & Hin & Hn). rewrite Forall_forall in Hall.
  apply list_elem_of_In in Hin. specialize (Hall tn Hin).
  apply reportable_not_nullish in Hall. congruence.
Qed.

End FurtherLoop.

Section FurtherRuns.

Variable captureStack : string -> string.

(** X7.  The loop sends one request per pass and none besides: the
    requests of a run are those of the passes it started, in the order of
    the script, each with the id drawn for it; a loop that is still alive at
    the end of the script has made one pass per turn. *)
Theorem synchronize_one_request_per_pass (turns : list Turn)
    (this : PollingBlockTracker) :
  exists started rest,
    turns = started ++ rest /\
    requests
      (B.trace (super (finalState (_synchronize captureStack turns this))))
    = requests (B.trace (super this))
      ++ map (fun tn => req this (requestId tn)) started /\
    match _synchronize captureStack turns this with
    | Pending _ => rest = []
    | _ => True
    end.
Proof.
  destruct (synchronize_Run captureStack turns this) as (started & done & Hr).
  destruct (Run_script captureStack _ _ _ _ _ Hr) as (rest & Hturns & Ho).
  exists started, rest. split; [exact Hturns|].
  split; [apply (Run_requests captureStack _ _ _ _ _ Hr)|].
  destruct (_synchronize captureStack turns this); try exact I.
  apply Ho.
Qed.


(** X9.  A completed pass is one request, one timer and exactly one
    event, never both: with [done] the passes the run completed, the run
    has set one timer per pass of [done], sent one request per pass of
    [done] (and one more in the pass that ended it by an exception), and
    emitted one [error] per pass of [done] whose fetch failed and one
    [_waitingForNextIteration] per pass of [done] whose fetch succeeded; a
    loop that is still alive at the end of the script has completed a pass
    for every turn. *)
Theorem synchronize_one_signal_per_pass (turns : list Turn)
    (this : PollingBlockTracker) :
  let final := finalState (_synchronize captureStack turns this) in
  let reqs := map (fun tn => req this (requestId tn)) in
  exists done rest,
    turns = done ++ rest /\
    timers (B.trace (super final))
    = timers (B.trace (super this)) ++ map (sleepOf this) done /\
    length (emissions "error" (B.trace (super final)))
    = (length (emissions "error" (B.trace (super this)))
       + length (List.filter (fun tn => negb (succeeded tn)) done))%nat /\
    length (emissions "_waitingForNextIteration" (B.trace (super final)))
    = (length (emissions "_waitingForNextIteration" (B.trace (super this)))
       + length (List.filter succeeded done))%nat /\
    match _synchronize captureStack turns this with
    | Pending _ =>
        rest = [] /\
        requests (B.trace (super final))
        = requests (B.trace (super this)) ++ reqs done
    | Exited _ =>
        requests (B.trace (super final))
        = requests (B.trace (super this)) ++ reqs done
    | Crashed _ =>
        exists tn rest',
          rest = tn :: rest' /\
          requests (B.trace (super final))
          = requests (B.trace (super this)) ++ reqs (done ++ [tn])
    end.
Proof.
  intros final reqs. subst final reqs. cbv beta.
  destruct (synchronize_Run captureStack turns this) as (started & done & Hr).
  destruct (Run_script captureStack _ _ _ _ _ Hr) as (rest & Hturns & Ho).
  pose proof (Run_signals captureStack _ _ _ _ _ Hr) as [He Hw].
  pose proof (Run_timers captureStack _ _ _ _ _ Hr) as Ht.
  pose proof (Run_requests captureStack _ _ _ _ _ Hr) as Hq.
  destruct (_synchronize captureStack turns this) as [t|t|t].
  - subst started. exists done, rest.
    split; [exact Hturns|]. split; [exact Ht|]. split; [exact He|].
    split; [exact Hw|exact Hq].
  - destruct Ho as [-> ->]. exists done, [].
    split; [exact Hturns|]. split; [exact Ht|]. split; [exact He|].
    split; [exact Hw|]. split; [reflexivity|exact Hq].
  - destruct Ho as (tn & -> & Hn). exists done, (tn :: rest).
    split; [rewrite Hturns, <- app_assoc; reflexivity|].
    split; [exact Ht|]. split; [exact He|]. split; [exact Hw|].
    exists tn, rest. split; [reflexivity|exact Hq].
Qed.

Lemma afterUpdate_undisturbed_failure (tn : Turn)
    (this : PollingBlockTracker) :
  succeeded tn = false -> undisturbed tn = true ->
  super (afterUpdate captureStack tn this)
  = B.record (Sent (req this (requestId tn))) (super this).
Proof.
  unfold succeeded, undisturbed, afterUpdate, _updateLatestBlock,
    _fetchLatestBlock.
  destruct (reply tn) as [[result|error]|e]; [discriminate| |];
    intros _; destruct (whileFetching tn); try discriminate;
    reflexivity.
Qed.

(** A pass in which the fetch fails and nobody else touches the tracker
    neither stops it nor arms the eviction timer. *)
Lemma loopBody_undisturbed_failure (tn : Turn)
    (this this' : PollingBlockTracker) :
  succeeded tn = false -> undisturbed tn = true ->
  loopBody captureStack tn this = Some this' ->
  B.evictionTimer (super this') = B.evictionTimer (super this) /\
  B._isRunning (super this') = B._isRunning (super this).
Proof.
  unfold succeeded, undisturbed, loopBody, _updateLatestBlock,
    _fetchLatestBlock.
  destruct (reply tn) as [[result|error]|e]; [discriminate| |];
    intros _; destruct (whileFetching tn); try discriminate;
    destruct (whileSleeping tn); try discriminate; intros _.
  - destruct (cause _); [|discriminate]. intros [= <-]. split; reflexivity.
  - destruct (cause e); [|discriminate]. intros [= <-]. split; reflexivity.
Qed.

Lemma Run_undisturbed_failures (turns started done : list Turn)
    (this : PollingBlockTracker) (o : LoopOutcome) :
  Run captureStack turns this started done o ->
  Forall (fun tn => succeeded tn = false /\ undisturbed tn = true) turns ->
  B.evictionTimer (super (finalState o)) = B.evictionTimer (super this) /\
  B._isRunning (super (finalState o)) = B._isRunning (super this).
Proof.
  induction 1 as [turns this Hrun|this Hrun|tn rest this Hrun Hbody
                 |tn rest started done this this' o Hrun Hbody Hr IH];
    cbn [finalState]; intros Hall.
  - auto.
  - auto.
  - inversion Hall as [|? ? [Hfail Hquiet] Hrest]; subst.
    rewrite (afterUpdate_undisturbed_failure tn this Hfail Hquiet).
    split; reflexivity.
  - inversion Hall as [|? ? [Hfail Hquiet] Hrest]; subst.
    destruct (IH Hrest) as [-> ->].
    apply (loopBody_undisturbed_failure tn this this' Hfail Hquiet Hbody).
Qed.

(** X10.  Failed fetches leave the cache alone.  With no eviction timer
    armed and nobody else touching the tracker, over a run in which no
    fetch succeeds, however it ends, the loop emits neither [sync] nor
    [latest], does not stop the tracker and arms no eviction timer, and the
    cached block is the one the run started with. *)
Theorem failed_fetches_keep_cache (turns : list Turn)
    (this : PollingBlockTracker) :
  Forall (fun tn => succeeded tn = false /\ undisturbed tn = true) turns ->
  B.evictionTimer (super this) = None ->
  let final := finalState (_synchronize captureStack turns this) in
  B.getCurrentBlock (super final) = B.getCurrentBlock (super this) /\
  emissions "sync" (B.trace (super final))
  = emissions "sync" (B.trace (super this)) /\
  emissions "latest" (B.trace (super final))
  = emissions "latest" (B.trace (super this)) /\
  B.evictionTimer (super final) = None /\
  B.isRunning (super final) = B.isRunning (super this).
Proof.
  intros Hall Hnone final. subst final.
  destruct (synchronize_Run captureStack turns this) as (started & done & Hr).
  assert (Hfail : Forall (fun tn => succeeded tn = false) turns).
  { eapply Forall_impl; [exact Hall|]. intros tn [H _]. exact H. }
  destruct (Run_failures_keep_cache captureStack _ _ _ _ _ Hr Hfail)
    as (Hc & Hs & Hl).
  destruct (Run_undisturbed_failures _ _ _ _ _ Hr Hall) as [Ht Hrun].
  unfold B.isRunning. rewrite Ht, Hnone. auto.
Qed.

(** X12.  [keepEventLoopActive] decides every timer of the loop.  For a
    tracker built by the constructor, each timer the loop sets asks for
    [unref] exactly when the option was given as [false]; so where timers
    have [unref] a timer keeps the process open exactly when the option is
    true or absent, and where they lack it every timer does. *)
Theorem keepEventLoopActive_decides_unref
    (opts : PollingBlockTrackerOptions) :
  match constructor captureStack (Some opts) with
  | Throw _ => True
  | Normal this =>
      let keep :=
        match keepEventLoopActive opts with Some b => b | None => true end in
      forall (before : list B.Op) (turns : list Turn),
        Forall
          (fun t =>
             snd t = negb keep /\
             keepsProcessOpen true (snd t) = keep /\
             keepsProcessOpen false (snd t) = true)
          (timers
             (B.trace
                (super
                   (finalState
                      (_synchronize captureStack turns
                         (interfere before this))))))
  end.
Proof.
  destruct (constructor captureStack (Some opts)) as [this|e] eqn:Hctor;
    [|exact I].
  apply constructor_inv in Hctor
    as (p & _ & _ & _ & _ & Hkeep & _ & Hsuper).
  intros keep before turns.
  destruct (synchronize_Run captureStack turns (interfere before this))
    as (started & done & Hr).
  rewrite (Run_timers captureStack _ _ _ _ _ Hr).
  assert (Hempty : timers (B.trace (super (interfere before this))) = []).
  { unfold interfere. cbn [super withSuper]. rewrite run_trace, Hsuper.
    reflexivity. }
  rewrite Hempty. cbn [app]. apply Forall_map, Forall_true.
  intros tn. unfold sleepOf, interfere. cbn [snd _keepEventLoopActive withSuper].
  rewrite Hkeep. subst keep. unfold keepsProcessOpen.
  destruct (keepEventLoopActive opts) as [[|]|]; repeat split; reflexivity.
Qed.



(** X14.  [checkForLatestBlock] never sleeps and never signals: whether
    the provider answers with a block or an error payload or rejects, the
    call sets no timer, emits neither [error] nor
    [_waitingForNextIteration], and sends exactly one request. *)
Theorem checkForLatestBlock_never_sleeps (tn : Turn)
    (this : PollingBlockTracker) :
  let this' := snd (checkForLatestBlock captureStack tn this) in
  timers (B.trace (super this')) = timers (B.trace (super this)) /\
  emissions "error" (B.trace (super this'))
  = emissions "error" (B.trace (super this)) /\
  emissions "_waitingForNextIteration" (B.trace (super this'))
  = emissions "_waitingForNextIteration" (B.trace (super this)) /\
  requests (B.trace (super this'))
  = requests (B.trace (super this)) ++ [req this (requestId tn)].
Proof.
  intros this'. subst this'.
  pose proof (checkForLatestBlock_cases captureStack tn this) as H.
  pose proof (fetch_trace captureStack tn this) as Hft.
  split; [|split; [|split]];
    try apply checkForLatestBlock_requests.
  - destruct (fst (_fetchLatestBlock captureStack tn this)).
    + destruct H as (v & t & -> & Hsuper & _). cbn [snd]. rewrite Hsuper.
      destruct (newPotentialLatest_trace a
                  (super (snd (_fetchLatestBlock captureStack tn this))))
        as [->|[-> _]]; rewrite Hft, !timers_app; simpl;
        rewrite ?app_nil_r; reflexivity.
    + destruct H as (t & -> & Ht & _). cbn [snd]. rewrite Ht, timers_app.
      simpl. apply app_nil_r.
  - destruct (fst (_fetchLatestBlock captureStack tn this)).
    + destruct H as (v & t & -> & _ & _ & _ & He). exact He.
    + destruct H as (t & -> & Ht & _). cbn [snd]. rewrite Ht, emissions_app.
      simpl. apply app_nil_r.
  - destruct (fst (_fetchLatestBlock captureStack tn this)).
    + destruct H as (v & t & -> & Hsuper & _). cbn [snd]. rewrite Hsuper.
      destruct (newPotentialLatest_trace a
                  (super (snd (_fetchLatestBlock captureStack tn this))))
        as [->|[-> _]]; rewrite Hft, !emissions_app; simpl;
        rewrite ?app_nil_r; reflexivity.
    + destruct H as (t & -> & Ht & _). cbn [snd]. rewrite Ht, emissions_app.
      simpl. apply app_nil_r.
Qed.

End FurtherRuns.

(** X1, for options that set everything, the retry timeout to a negative
    number and both flags against their defaults. *)
Lemma constructor_keeps_explicit_options_witness :
  let opts :=
    {| provider := Some (ProviderRef 0); pollingInterval := Some 100%Q;
       retryTimeout := Some (-5)%Q; keepEventLoopActive := Some false;
       setSkipCacheFlag := Some true; blockResetDuration := Some 200%Q |} in
  provider opts = Some (ProviderRef 0) /\
  exists this,
    constructor sampleStack (Some opts) = Normal this /\
    (forall q, pollingInterval opts = Some q -> ~ (q == 0)%Q ->
               _pollingInterval this = q) /\
    (forall q, retryTimeout opts = Some q -> ~ (q == 0)%Q ->
               _retryTimeout this = q) /\
    (forall b, keepEventLoopActive opts = Some b ->
               _keepEventLoopActive this = b) /\
    (forall b, setSkipCacheFlag opts = Some b -> _setSkipCacheFlag this = b) /\
    (forall d, blockResetDuration opts = Some d ->
               B.evictionDuration (super this) = Some d).
Proof.
  intros opts. split; [reflexivity|].
  exact (constructor_keeps_explicit_options sampleStack opts (ProviderRef 0)
           eq_refl).
Defined.

(** X6, on a script with a thrown string, an error payload, a thrown
    object and a success. *)
Lemma synchronize_survives_reportable_failures_witness :
  let turns :=
    [quiet 1 (Rejects (Js.Str "boom"));
     quiet 2 (Responds (JsonRpcFailure {| code := 1%Z; message := "boom" |}));
     quiet 3 (Rejects (Js.Obj [("message", Js.Str "boom")]));
     quiet 4 (Responds (JsonRpcSuccess "0x1"))] in
  Forall (fun tn => reportable tn = true) turns /\
  exists this',
    _synchronize sampleStack turns listening = Exited this' \/
    _synchronize sampleStack turns listening = Pending this'.
Proof.
  intros turns.
  assert (H : Forall (fun tn => reportable tn = true) turns)
    by (repeat constructor).
  split; [exact H|].
  exact (synchronize_survives_reportable_failures sampleStack turns
           listening H).
Defined.

(** X10, on a script of a thrown string and an error payload, with block
    [0x1] cached. *)
Lemma failed_fetches_keep_cache_witness :
  let turns := [quiet 1 (Rejects (Js.Str "boom"));
                quiet 2 (Responds (JsonRpcFailure
                                     {| code := 1%Z; message := "boom" |}))] in
  let final := finalState (_synchronize sampleStack turns cached) in
  Forall (fun tn => succeeded tn = false /\ undisturbed tn = true) turns /\
  B.evictionTimer (super cached) = None /\
  B.getCurrentBlock (super final) = B.getCurrentBlock (super cached) /\
  emissions "sync" (B.trace (super final))
  = emissions "sync" (B.trace (super cached)) /\
  emissions "latest" (B.trace (super final))
  = emissions "latest" (B.trace (super cached)) /\
  B.evictionTimer (super final) = None /\
  B.isRunning (super final) = B.isRunning (super cached).
Proof.
  intros turns final.
  assert (H : Forall (fun tn => succeeded tn = false /\ undisturbed tn = true)
                turns)
    by (repeat constructor).
  assert (Hnone : B.evictionTimer (super cached) = None)
    by (vm_compute; reflexivity).
  split; [exact H|]. split; [exact Hnone|].
  exact (failed_fetches_keep_cache sampleStack turns cached H Hnone).
Defined.
